(** * cvat-core: the API implementation layer (api-implementation.js)

    A shallow embedding of the functions that [implementAPI] installs on the
    declared API surface: filter validation, exclusivity checks, translation
    of client field names into wire names, the calls to the server proxy and
    the adaptation of the raw answers into domain entities.

    JavaScript values are a tagged union, objects are association lists in
    property order (the order [for ... in] walks them), the calls to the
    server proxy are the nodes of a small free monad, and the process-wide
    configuration object is threaded explicitly. *)

From Stdlib Require Import List String Ascii ZArith Bool Lia DecimalString.
Import ListNotations.
Local Open Scope string_scope.

Set Implicit Arguments.
Set Warnings "-register-all".

(** ** JavaScript values *)

(** Numbers: the integral ones ([Number.isInteger]) by their value, [NaN],
    and every other number (finite non-integral, or infinite) by the text
    that [String(n)] gives for it. Every integer of magnitude below 2^53 is
    a number; of the larger ones only those that a double holds are, and
    what is said of the others is said of no value of a program. *)
Inductive number : Type :=
| Int (z : Z)
| NaN
| NonIntegral (text : string).

(** The classes of the domain entities (user.js, session.js, project.js,
    cloud-storage.js, organization.js). *)
Inductive class : Type :=
| User | Task | Job | Project | CloudStorage | Organization.

(** An object lists its own enumerable properties in property order; an
    array carries its elements and the extra properties assigned to it
    (such as [count]). [cls] is the class an object was constructed by,
    [None] for a plain object. A string is held as its bytes in UTF-8, the
    form in which a query text carries it. *)
Inductive value : Type :=
| Undefined
| Null
| Bool (b : bool)
| Num (n : number)
| Str (s : string)
| Arr (elems : list value) (props : list (string * value))
| Obj (cls : option class) (props : list (string * value)).

Definition object : Type := list (string * value).

Definition class_eqb (a b : class) : bool :=
  match a, b with
  | User, User | Task, Task | Job, Job | Project, Project
  | CloudStorage, CloudStorage | Organization, Organization => true
  | _, _ => false
  end.

Definition class_name (c : class) : string :=
  match c with
  | User => "User" | Task => "Task" | Job => "Job" | Project => "Project"
  | CloudStorage => "CloudStorage" | Organization => "Organization"
  end.

(** [key in o] and [hasOwnProperty(o, key)], for objects and for the
    tables (schemas, enumerations) written as object literals. *)
Fixpoint has_own {A : Type} (o : list (string * A)) (key : string) : bool :=
  match o with
  | [] => false
  | (k, _) :: rest => if String.eqb k key then true else has_own rest key
  end.

Fixpoint lookup {A : Type} (o : list (string * A)) (key : string) : option A :=
  match o with
  | [] => None
  | (k, v) :: rest => if String.eqb k key then Some v else lookup rest key
  end.

(** [o[key]]: reading a property that is not there gives [undefined]. *)
Definition get (o : object) (key : string) : value :=
  match lookup o key with
  | Some v => v
  | None => Undefined
  end.

(** [o[key] = v]: an existing property keeps its place, a new one goes last
    (the keys at hand are field names, none of them an array index, which
    JavaScript would sort to the front). *)
Fixpoint set (o : object) (key : string) (v : value) : object :=
  match o with
  | [] => [(key, v)]
  | (k, w) :: rest =>
      if String.eqb k key then (k, v) :: rest else (k, w) :: set rest key v
  end.

Definition keys {A : Type} (o : list (string * A)) : list string := map fst o.

(** The condition of [if (v)]. *)
Definition truthy (v : value) : bool :=
  match v with
  | Undefined | Null => false
  | Bool b => b
  | Num (Int z) => negb (Z.eqb z 0)
  | Num NaN => false
  | Num (NonIntegral _) => true
  | Str s => negb (String.eqb s EmptyString)
  | Arr _ _ | Obj _ _ => true
  end.

(** [a === b] where one side is a primitive held in a table; two objects
    met in different places are different references. *)
Definition strict_equal (a b : value) : bool :=
  match a, b with
  | Undefined, Undefined | Null, Null => true
  | Bool x, Bool y => Bool.eqb x y
  | Num (Int x), Num (Int y) => Z.eqb x y
  | Num (NonIntegral x), Num (NonIntegral y) => String.eqb x y
  | Str x, Str y => String.eqb x y
  | _, _ => false
  end.

(** The decimal digits of an integer. *)
Definition string_of_Z (z : Z) : string := NilZero.string_of_int (Z.to_int z).

(** The integral numbers of magnitude below 2^53 ([Number.isSafeInteger]):
    every one of them is a double, and its text is its decimal digits. *)
Definition is_safe_integer (z : Z) : bool := (Z.abs z <? 2 ^ 53)%Z.

Section Texts.

(** The text that [String(n)] gives for an integral number of magnitude
    2^53 or more: the fewest digits that read back as the same double,
    filled with zeros, and in exponent form from 10^21 on ([1e+21]). That
    is floating-point work of the platform; it is taken as it comes. An
    integer of that size that no double holds is not a value a program
    meets, and what is given for it plays no part. *)
Variable unsafe_integer_text : Z -> string.

(** [String(v)], the conversion [URLSearchParams.set] applies to a value. *)
Fixpoint ToString (v : value) : string :=
  match v with
  | Undefined => "undefined"
  | Null => "null"
  | Bool true => "true"
  | Bool false => "false"
  | Num (Int z) =>
      if is_safe_integer z then string_of_Z z else unsafe_integer_text z
  | Num NaN => "NaN"
  | Num (NonIntegral text) => text
  | Str s => s
  | Arr elems _ =>
      (fix join (l : list value) : string :=
         match l with
         | [] => EmptyString
         | x :: rest =>
             let sx := match x with
                       | Undefined | Null => EmptyString
                       | _ => ToString x
                       end in
             match rest with
             | [] => sx
             | _ :: _ => sx ++ "," ++ join rest
             end
         end) elems
  | Obj _ _ => "[object Object]"
  end.

End Texts.

(** A name between double quotes, as the messages show it. *)
Definition quoted (s : string) : string :=
  String (ascii_of_nat 34) (s ++ String (ascii_of_nat 34) EmptyString).

(** ** Errors and results *)

(** [ArgumentError] is the class of exceptions.js that the implementation
    throws itself; the next four are the errors of the validators and of the
    entity constructors; [TypeError] is the native error of a failed
    property access or method call; [ServerError] is a failure of the
    transport, passed on as it is. *)
Inductive error : Type :=
| ArgumentError (message : string)
| InvalidFieldError (field : string)
| InvalidTypeError (field expected : string) (actual : value)
| ConflictingFieldsError (fields : list string)
| MalformedRecordError (field : string)
| TypeError
| ServerError (message : string).

Inductive result (A : Type) : Type :=
| Ok (a : A)
| Err (e : error).
Arguments Ok {A} a.
Arguments Err {A} e.

Definition result_bind {A B : Type} (r : result A) (f : A -> result B) : result B :=
  match r with
  | Ok a => f a
  | Err e => Err e
  end.

(** [l.map(f)] where [f] may throw: the first failure ends the walk. *)
Fixpoint mapM {A B : Type} (f : A -> result B) (l : list A) : result (list B) :=
  match l with
  | [] => Ok []
  | x :: rest =>
      result_bind (f x) (fun y =>
      result_bind (mapM f rest) (fun ys => Ok (y :: ys)))
  end.

(** ** The helpers of common.js *)

(** Modelled from the spec: the validator predicates of common.js
    ([isBoolean], [isInteger], [isString], and [isEnum] bound to an
    enumeration object) are not among the sources; a predicate is a type
    check or a membership check against the fixed value set of an
    enumeration. *)
Inductive checker : Type :=
| isBoolean
| isInteger
| isString
| isEnum (enum : object).

Definition accepts (c : checker) (v : value) : bool :=
  match c, v with
  | isBoolean, Bool _ => true
  | isInteger, Num (Int _) => true
  | isString, Str _ => true
  | isEnum enum, _ => existsb (fun kv => strict_equal (snd kv) v) enum
  | _, _ => false
  end.

Definition kind_name (c : checker) : string :=
  match c with
  | isBoolean => "boolean"
  | isInteger => "integer"
  | isString => "string"
  | isEnum _ => "enum"
  end.

Definition schema : Type := list (string * checker).

(** Modelled from the spec: [checkFilter] of common.js is not among the
    sources. For every key of the filter the schema must contain that key,
    else the check fails with [InvalidFieldError] naming the key; for every
    key in both, the schema's predicate must accept the value, else it fails
    with [InvalidTypeError] naming the key, the expected kind and the actual
    value. The keys are visited in property order. *)
Fixpoint checkFilter (filter : object) (fields : schema) : result unit :=
  match filter with
  | [] => Ok tt
  | (prop, v) :: rest =>
      match lookup fields prop with
      | None => Err (InvalidFieldError prop)
      | Some c =>
          if accepts c v then checkFilter rest fields
          else Err (InvalidTypeError prop (kind_name c) v)
      end
  end.

(** Modelled from the spec: [checkExclusiveFields] of common.js is not among
    the sources. It counts how many of the group's field names appear as
    keys of the filter; more than one present fails with
    [ConflictingFieldsError] listing the conflicting names. A group member
    with any of the allowed companions is permitted. *)
Definition checkExclusiveFields (obj : object) (exclusive ignore : list string)
  : result unit :=
  let present := filter (has_own obj) exclusive in
  if Nat.ltb 1 (List.length present) then Err (ConflictingFieldsError present)
  else Ok tt.

Definition is_upper (c : ascii) : bool :=
  (Nat.leb 65 (nat_of_ascii c) && Nat.leb (nat_of_ascii c) 90)%bool.

Definition to_lower (c : ascii) : ascii :=
  if is_upper c then ascii_of_nat (nat_of_ascii c + 32) else c.

Fixpoint snake_rest (s : string) : string :=
  match s with
  | EmptyString => EmptyString
  | String c rest =>
      if is_upper c then String "_" (String (to_lower c) (snake_rest rest))
      else String c (snake_rest rest)
  end.

(** Modelled from the spec: [camelToSnake] of common.js is not among the
    sources. The general rule turns a mixed-case identifier into a
    lower-case one whose words are separated by underscores
    ([providerType] gives [provider_type]). *)
Definition camelToSnake (str : string) : string :=
  match str with
  | EmptyString => EmptyString
  | String c rest => String (to_lower c) (snake_rest rest)
  end.

Definition instance_of (v : value) (c : class) : bool :=
  match v with
  | Obj (Some c') _ => class_eqb c' c
  | _ => false
  end.

(** [typeof v]. *)
Definition type_of (v : value) : string :=
  match v with
  | Undefined => "undefined"
  | Null | Arr _ _ | Obj _ _ => "object"
  | Bool _ => "boolean"
  | Num _ => "number"
  | Str _ => "string"
  end.

(** Modelled from the spec: [checkObjectType] of common.js is not among the
    sources. Given a primitive type name it checks [typeof value]; given
    none and a class, as the organization activation calls it, it accepts
    the instances of the class; any other value fails with the type error
    naming the argument, the expected kind and the actual value. *)
Definition checkObjectType (name : string) (v : value)
  (type : option string) (instance : option class) : result unit :=
  match type, instance with
  | Some t, _ =>
      if String.eqb (type_of v) t then Ok tt else Err (InvalidTypeError name t v)
  | None, Some c =>
      if instance_of v c then Ok tt else Err (InvalidTypeError name (class_name c) v)
  | None, None => Ok tt
  end.

(** ** The server proxy *)

(** A list answer of the transport: the raw records in the order the server
    gave them, and the [count] property attached to the array ([undefined]
    when the answer carries none). *)
Record listing : Type := { records : list object; count : value }.

(** The calls of server-proxy.js that the implementation awaits. *)
Inductive request : Type :=
| serverProxy_users_self
| serverProxy_users_get (searchParams : object)
| serverProxy_tasks_get (searchParams : object)
| serverProxy_jobs_get (filter : object)
| serverProxy_projects_get (searchParams : object)
| serverProxy_cloudStorages_get (query : string)
| serverProxy_organizations_get.

(** What each call resolves to. The jobs call serves both the single-record
    fetch and the paginated query, so its answer is any value. *)
Definition response (r : request) : Type :=
  match r with
  | serverProxy_users_self => object
  | serverProxy_users_get _ => list object
  | serverProxy_tasks_get _ => listing
  | serverProxy_jobs_get _ => value
  | serverProxy_projects_get _ => listing
  | serverProxy_cloudStorages_get _ => listing
  | serverProxy_organizations_get => list object
  end.

(** An asynchronous function body: it returns, throws, or awaits a call of
    the server proxy and goes on with the answer. *)
Inductive prog (A : Type) : Type :=
| Return (a : A)
| Throw (e : error)
| Await (r : request) (k : response r -> prog A).
Arguments Return {A} a.
Arguments Throw {A} e.
Arguments Await {A} r k.

Fixpoint bind {A B : Type} (p : prog A) (f : A -> prog B) : prog B :=
  match p with
  | Return a => f a
  | Throw e => Throw e
  | Await r k => Await r (fun x => bind (k x) f)
  end.

Definition lift {A : Type} (r : result A) : prog A :=
  match r with
  | Ok a => Return a
  | Err e => Throw e
  end.

Definition await (r : request) : prog (response r) := Await r (fun x => Return x).

Declare Scope prog_scope.
Delimit Scope prog_scope with prog.
Notation "x <- c ;; k" := (bind c (fun x => k))
  (at level 61, c at next level, right associativity) : prog_scope.
Notation "c ;; k" := (bind c (fun _ => k))
  (at level 61, right associativity) : prog_scope.

(** The transport answers a call, knowing the calls made before it, with a
    value or with a failure. *)
Definition transport : Type :=
  list request -> forall r : request, result (response r).

(** Running a body against a transport gives its outcome and the calls it
    made, oldest first. A rejected call throws at the [await]. *)
Fixpoint run {A : Type} (t : transport) (log : list request) (p : prog A)
  : result A * list request :=
  match p with
  | Return a => (Ok a, log)
  | Throw e => (Err e, log)
  | Await r k =>
      match t log r with
      | Ok x => run t (log ++ [r])%list (k x)
      | Err e => (Err e, (log ++ [r])%list)
      end
  end.

Definition execute {A : Type} (t : transport) (p : prog A)
  : result A * list request :=
  run t [] p.

(** [v[key]] on any value: [undefined] and [null] have no properties. *)
Definition property (v : value) (key : string) : result value :=
  match v with
  | Undefined | Null => Err TypeError
  | Arr _ props | Obj _ props => Ok (get props key)
  | Bool _ | Num _ | Str _ => Ok Undefined
  end.

(** ** [URLSearchParams] *)

Definition URLSearchParams : Type := list (string * string).

(** [params.set(name, value)]: the first pair of that name takes the value
    and the others of that name go; a new name is appended. *)
Fixpoint URLSearchParams_set (params : URLSearchParams) (name v : string)
  : URLSearchParams :=
  match params with
  | [] => [(name, v)]
  | (n, w) :: rest =>
      if String.eqb n name
      then (n, v) :: filter (fun nw => negb (String.eqb (fst nw) name)) rest
      else (n, w) :: URLSearchParams_set rest name v
  end.

Definition hex_digit (n : nat) : ascii :=
  ascii_of_nat (if Nat.ltb n 10 then 48 + n else 55 + n).

(** The form-urlencoded byte serializer: letters, digits and [*-._] stay,
    a space becomes [+], any other byte is written [%XX]. *)
Definition urlencode_byte (c : ascii) : string :=
  let n := nat_of_ascii c in
  if ((Nat.leb 48 n && Nat.leb n 57) || (Nat.leb 65 n && Nat.leb n 90)
      || (Nat.leb 97 n && Nat.leb n 122)
      || Nat.eqb n 42 || Nat.eqb n 45 || Nat.eqb n 46 || Nat.eqb n 95)%bool
  then String c EmptyString
  else if Nat.eqb n 32 then "+"
  else String "%" (String (hex_digit (n / 16)) (String (hex_digit (n mod 16)) EmptyString)).

Fixpoint urlencode (s : string) : string :=
  match s with
  | EmptyString => EmptyString
  | String c rest => urlencode_byte c ++ urlencode rest
  end.

(** [params.toString()]. *)
Fixpoint URLSearchParams_toString (params : URLSearchParams) : string :=
  match params with
  | [] => EmptyString
  | (n, v) :: rest =>
      urlencode n ++ "=" ++ urlencode v ++
      match rest with
      | [] => EmptyString
      | _ :: _ => "&" ++ URLSearchParams_toString rest
      end
  end.

(** *** Reading a query text

    What the text of a query says is what the form-urlencoded parser reads
    from it: the text is cut at every [&], the empty pieces are dropped, a
    piece is cut at its first [=] into a name and a value, and in each of
    them [+] becomes a space and [%XX] the byte it names. *)

Definition hex_value (c : ascii) : option nat :=
  let n := nat_of_ascii c in
  if (Nat.leb 48 n && Nat.leb n 57)%bool then Some (n - 48)
  else if (Nat.leb 65 n && Nat.leb n 70)%bool then Some (n - 55)
  else if (Nat.leb 97 n && Nat.leb n 102)%bool then Some (n - 87)
  else None.

Fixpoint urldecode (s : string) : string :=
  match s with
  | EmptyString => EmptyString
  | String c rest =>
      if Ascii.eqb c "+" then String " " (urldecode rest)
      else if Ascii.eqb c "%" then
        match rest with
        | String h (String l rest') =>
            match hex_value h, hex_value l with
            | Some a, Some b => String (ascii_of_nat (16 * a + b)) (urldecode rest')
            | _, _ => String c (urldecode rest)
            end
        | _ => String c (urldecode rest)
        end
      else String c (urldecode rest)
  end.

Fixpoint split_on (sep : ascii) (s : string) : list string :=
  match s with
  | EmptyString => [EmptyString]
  | String c rest =>
      if Ascii.eqb c sep then EmptyString :: split_on sep rest
      else match split_on sep rest with
           | [] => [String c EmptyString]
           | piece :: pieces => String c piece :: pieces
           end
  end.

Fixpoint cut_at (sep : ascii) (s : string) : string * string :=
  match s with
  | EmptyString => (EmptyString, EmptyString)
  | String c rest =>
      if Ascii.eqb c sep then (EmptyString, rest)
      else let (before, after) := cut_at sep rest in (String c before, after)
  end.

Definition urlencoded_parse (query : string) : URLSearchParams :=
  map (fun piece =>
         let (name, v) := cut_at "=" piece in (urldecode name, urldecode v))
    (filter (fun piece => negb (String.eqb piece EmptyString))
       (split_on "&" query)).

(** No character of the text is the given one. *)
Fixpoint free_of (sep : ascii) (s : string) : bool :=
  match s with
  | EmptyString => true
  | String c rest => (negb (Ascii.eqb c sep) && free_of sep rest)%bool
  end.

(** ** Entities *)

(** Modelled from the spec: the [Project] class of project.js is not among
    the sources. Its constructor reads a fixed set of expected raw fields,
    the server-assigned [id] and the list of task identifiers under the name
    [task_ids], and fails with [MalformedRecordError] if one of them is
    absent or of the wrong shape; the entity exposes the fields read. *)
Definition Project_fields : list (string * (value -> bool)) :=
  [ ("id", fun v => match v with Num (Int _) => true | _ => false end);
    ("task_ids", fun v => match v with Arr _ _ => true | _ => false end) ].

Definition read_field (initialData : object) (field : string * (value -> bool))
  : result (string * value) :=
  match lookup initialData (fst field) with
  | Some v => if snd field v then Ok (fst field, v)
              else Err (MalformedRecordError (fst field))
  | None => Err (MalformedRecordError (fst field))
  end.

Definition Project_constructor (initialData : value) : result object :=
  match initialData with
  | Obj _ props => mapM (read_field props) Project_fields
  | _ => Err (MalformedRecordError EmptyString)
  end.

(** The process-wide configuration object of config.js, as far as the
    implementation writes it. *)
Record config : Type := { organizationID : value }.

Section Implementation.

(** The enumeration objects of enums.js. *)
Variables TaskStatus TaskMode DimensionType : object.
Variables CloudStorageProviderType CloudStorageCredentialsType : object.

(** The constructors of [User], [Task], [Job], [CloudStorage] and
    [Organization]: each gives the properties of the new entity, or throws. *)
Variable construct : class -> value -> result object.

(** The platform's text of the integral numbers from 2^53 on. *)
Variable unsafe_integer_text : Z -> string.

(** [new C(raw)]. *)
Definition new (c : class) (raw : value) : result value :=
  result_bind
    (match c with
     | Project => Project_constructor raw
     | _ => construct c raw
     end)
    (fun props => Ok (Obj (Some c) props)).

Definition new_record (c : class) (raw : object) : result value :=
  new c (Obj None raw).

Local Open Scope prog_scope.

(** *** [cvat.users.get] *)

Definition users_schema : schema :=
  [ ("id", isInteger); ("is_active", isBoolean); ("self", isBoolean);
    ("search", isString); ("limit", isInteger) ].

(** The loop of lines 140-145, one key at a time: a truthy entry other
    than [self] goes to the query. *)
Definition users_step (filter searchParams : object) (key : string) : object :=
  if (truthy (get filter key) && negb (String.eqb key "self"))%bool
  then set searchParams key (get filter key)
  else searchParams.

Definition users_searchParams (filter : object) : object :=
  fold_left (users_step filter) (keys filter) [].

Definition cvat_users_get (filter : object) : prog value :=
  lift (checkFilter filter users_schema) ;;
  users <- (if (has_own filter "self" && truthy (get filter "self"))%bool
            then self <- await serverProxy_users_self ;; Return [self]
            else await (serverProxy_users_get (users_searchParams filter))) ;;
  users <- lift (mapM (new_record User) users) ;;
  Return (Arr users []).

(** *** [cvat.jobs.get] *)

Definition jobs_schema : schema :=
  [ ("page", isInteger); ("stage", isString); ("state", isString);
    ("assignee", isString); ("taskID", isInteger); ("jobID", isInteger) ].

Definition jobs_conflict_message : string :=
  "Filter fields " ++ quoted "taskID" ++ " and " ++ quoted "jobID"
  ++ " are not permitted to be used at the same time".

(** Lines 183-186: the paginated jobs query. *)
Definition jobs_query (filter : object) : prog value :=
  jobsData <- await (serverProxy_jobs_get filter) ;;
  results <- lift (property jobsData "results") ;;
  match results with
  | Arr elems _ =>
      jobs <- lift (mapM (new Job) elems) ;;
      total <- lift (property jobsData "count") ;;
      Return (Arr jobs [("count", total)])
  | _ => Throw TypeError
  end.

Definition cvat_jobs_get (filter : object) : prog value :=
  lift (checkFilter filter jobs_schema) ;;
  if (has_own filter "taskID" && has_own filter "jobID")%bool
  then Throw (ArgumentError jobs_conflict_message)
  else if has_own filter "taskID"
  then
    tasks <- await (serverProxy_tasks_get [("id", get filter "taskID")]) ;;
    match records tasks with
    | task :: _ =>
        entity <- lift (new_record Task task) ;;
        lift (property entity "jobs")
    | [] => Return (Arr [] [])
    end
  else if has_own filter "jobID"
  then
    job <- await (serverProxy_jobs_get [("id", get filter "jobID")]) ;;
    if truthy job
    then entity <- lift (new Job job) ;; Return (Arr [entity] [])
    else jobs_query filter
  else jobs_query filter.

(** *** The wire query of the list operations *)

(** The loop over the fields enumerated for an operation: a field the
    filter owns goes to the query under its translated name. *)
Definition translate (filter : object) (fields : list string) : object :=
  fold_left
    (fun searchParams field =>
       if has_own filter field
       then set searchParams (camelToSnake field) (get filter field)
       else searchParams)
    fields [].

(** The list operations end alike: every raw record becomes an entity, in
    order, and the array takes the [count] of the answer. *)
Definition adapt (c : class) (data : listing) : prog value :=
  entities <- lift (mapM (new_record c) (records data)) ;;
  Return (Arr entities [("count", count data)]).

(** What [adapt] gives for an answer: the entities of the records, in
    order, under the [count] of the answer; the first constructor that
    throws ends the operation. *)
Definition collection (c : class) (data : listing) : result value :=
  result_bind (mapM (new_record c) (records data))
    (fun entities => Ok (Arr entities [("count", count data)])).

(** *** [cvat.tasks.get] *)

Definition tasks_schema : schema :=
  [ ("page", isInteger); ("projectId", isInteger); ("name", isString);
    ("id", isInteger); ("owner", isString); ("assignee", isString);
    ("search", isString); ("ordering", isString);
    ("status", isEnum TaskStatus); ("mode", isEnum TaskMode);
    ("dimension", isEnum DimensionType) ].

Definition tasks_fields : list string :=
  [ "name"; "owner"; "assignee"; "search"; "ordering"; "status"; "mode";
    "id"; "page"; "projectId"; "dimension" ].

Definition cvat_tasks_get (filter : object) : prog value :=
  lift (checkFilter filter tasks_schema) ;;
  lift (checkExclusiveFields filter ["id"; "search"; "projectId"] ["page"]) ;;
  tasksData <- await (serverProxy_tasks_get (translate filter tasks_fields)) ;;
  adapt Task tasksData.

(** *** [cvat.projects.get] *)

Definition projects_schema : schema :=
  [ ("id", isInteger); ("page", isInteger); ("name", isString);
    ("assignee", isString); ("owner", isString); ("search", isString);
    ("status", isEnum TaskStatus) ].

Definition projects_fields : list string :=
  [ "name"; "assignee"; "owner"; "search"; "status"; "id"; "page" ].

(** Lines 254-257: [project.task_ids = project.tasks] on every record,
    which keeps its [tasks] property. *)
Definition with_task_ids (project : object) : object :=
  set project "task_ids" (get project "tasks").

Definition cvat_projects_get (filter : object) : prog value :=
  lift (checkFilter filter projects_schema) ;;
  lift (checkExclusiveFields filter ["id"; "search"] ["page"]) ;;
  projectsData <- await (serverProxy_projects_get (translate filter projects_fields)) ;;
  adapt Project {| records := map with_task_ids (records projectsData);
                   count := count projectsData |}.

(** *** [cvat.cloudStorages.get] *)

Definition cloudStorages_schema : schema :=
  [ ("page", isInteger); ("displayName", isString); ("resourceName", isString);
    ("description", isString); ("id", isInteger); ("owner", isString);
    ("search", isString);
    ("providerType", isEnum CloudStorageProviderType);
    ("credentialsType", isEnum CloudStorageCredentialsType) ].

Definition cloudStorages_fields : list string :=
  [ "displayName"; "credentialsType"; "providerType"; "owner"; "search";
    "id"; "page"; "description" ].

(** The step of the loop of lines 283-296. *)
Definition cloudStorages_step (filter : object) (searchParams : URLSearchParams)
  (field : string) : URLSearchParams :=
  if has_own filter field
  then URLSearchParams_set searchParams (camelToSnake field)
         (ToString unsafe_integer_text (get filter field))
  else searchParams.

(** Lines 282-300: the enumerated fields under their translated names,
    then [resourceName] under the name [resource]. *)
Definition cloudStorages_searchParams (filter : object) : URLSearchParams :=
  let searchParams :=
    fold_left (cloudStorages_step filter) cloudStorages_fields [] in
  if has_own filter "resourceName"
  then URLSearchParams_set searchParams "resource" (ToString unsafe_integer_text (get filter "resourceName"))
  else searchParams.

Definition cvat_cloudStorages_get (filter : object) : prog value :=
  lift (checkFilter filter cloudStorages_schema) ;;
  lift (checkExclusiveFields filter ["id"; "search"] ["page"]) ;;
  cloudStoragesData <-
    await (serverProxy_cloudStorages_get
             (URLSearchParams_toString (cloudStorages_searchParams filter))) ;;
  adapt CloudStorage cloudStoragesData.

(** *** [cvat.organizations] *)

Definition cvat_organizations_get : prog value :=
  organizationsData <- await serverProxy_organizations_get ;;
  organizations <- lift (mapM (new_record Organization) organizationsData) ;;
  Return (Arr organizations []).

End Implementation.

(** [activate] is synchronous: it checks its argument, then writes the
    marker; [deactivate] only writes it. Both are given the configuration
    and give it back. *)
Definition cvat_organizations_activate (organization : value) (cfg : config)
  : result unit * config :=
  match checkObjectType "organization" organization None (Some Organization) with
  | Err e => (Err e, cfg)
  | Ok _ =>
      match property organization "slug" with
      | Err e => (Err e, cfg)
      | Ok slug => (Ok tt, {| organizationID := slug |})
      end
  end.

Definition cvat_organizations_deactivate (cfg : config) : result unit * config :=
  (Ok tt, {| organizationID := Null |}).

(** ** Sample surroundings

    A server that answers each call from a fixed table, sample enumeration
    objects and a constructor that keeps the raw properties: enough to run
    the operations on concrete filters. *)

Record server : Type := {
  users_self : result object;
  users_list : object -> result (list object);
  tasks_list : object -> result listing;
  jobs_answer : object -> result value;
  projects_list : object -> result listing;
  cloudStorages_list : string -> result listing;
  organizations_list : result (list object)
}.

Definition serve (s : server) : transport :=
  fun _ r =>
    match r as r0 return result (response r0) with
    | serverProxy_users_self => users_self s
    | serverProxy_users_get searchParams => users_list s searchParams
    | serverProxy_tasks_get searchParams => tasks_list s searchParams
    | serverProxy_jobs_get filter => jobs_answer s filter
    | serverProxy_projects_get searchParams => projects_list s searchParams
    | serverProxy_cloudStorages_get query => cloudStorages_list s query
    | serverProxy_organizations_get => organizations_list s
    end.

Definition offline : server := {|
  users_self := Err (ServerError "offline");
  users_list := fun _ => Err (ServerError "offline");
  tasks_list := fun _ => Err (ServerError "offline");
  jobs_answer := fun _ => Err (ServerError "offline");
  projects_list := fun _ => Err (ServerError "offline");
  cloudStorages_list := fun _ => Err (ServerError "offline");
  organizations_list := Err (ServerError "offline")
|}.

Definition sample_TaskStatus : object :=
  [ ("ANNOTATION", Str "annotation"); ("VALIDATION", Str "validation");
    ("COMPLETED", Str "completed") ].

Definition sample_TaskMode : object :=
  [ ("ANNOTATION", Str "annotation"); ("INTERPOLATION", Str "interpolation") ].

Definition sample_DimensionType : object :=
  [ ("DIM_2D", Str "2d"); ("DIM_3D", Str "3d") ].

Definition sample_ProviderType : object :=
  [ ("AWS_S3", Str "AWS_S3_BUCKET"); ("AZURE", Str "AZURE_CONTAINER") ].

Definition sample_CredentialsType : object :=
  [ ("KEY_SECRET_KEY_PAIR", Str "KEY_SECRET_KEY_PAIR");
    ("ANONYMOUS_ACCESS", Str "ANONYMOUS_ACCESS") ].

Definition keep_properties (c : class) (raw : value) : result object :=
  match raw with
  | Obj _ props => Ok props
  | _ => Ok []
  end.

(** A stand-in for the platform's text of the integers from 2^53 on: 10^21
    is the first to be written in exponent form. *)
Definition sample_unsafe_integer_text (z : Z) : string :=
  if (z =? 10 ^ 21)%Z then "1e+21" else string_of_Z z.

Definition record_of_id (id : Z) : object := [("id", Num (Int id))].

(** A server that has no job 7: the single-record fetch gives nothing, the
    paginated query answers with one job. *)
Definition server_without_job_7 : server := {|
  users_self := Err (ServerError "offline");
  users_list := fun _ => Err (ServerError "offline");
  tasks_list := fun _ => Err (ServerError "offline");
  jobs_answer := fun filter =>
    if has_own filter "id" then Ok Null
    else Ok (Obj None [ ("results", Arr [Obj None (record_of_id 9)] []);
                        ("count", Num (Int 1)) ]);
  projects_list := fun _ => Err (ServerError "offline");
  cloudStorages_list := fun _ => Err (ServerError "offline");
  organizations_list := Err (ServerError "offline")
|}.

(** A server whose task and project lists hold the given records and count,
    and whose jobs call gives the given value. *)
Definition server_with (data : listing) (job : value) : server := {|
  users_self := Ok (record_of_id 1);
  users_list := fun _ => Ok (records data);
  tasks_list := fun _ => Ok data;
  jobs_answer := fun _ => Ok job;
  projects_list := fun _ => Ok data;
  cloudStorages_list := fun _ => Ok data;
  organizations_list := Ok (records data)
|}.

(** Three task records, with the declared total 37 and with none. *)
Definition three_records : list object :=
  [record_of_id 1; record_of_id 2; record_of_id 3].

Definition page_of_37 : listing :=
  {| records := three_records; count := Num (Int 37) |}.

Definition page_without_count : listing :=
  {| records := three_records; count := Undefined |}.

(** A project record as the server gives it, its tasks under [tasks]. *)
Definition raw_project : object :=
  [("id", Num (Int 1)); ("tasks", Arr [Num (Int 4); Num (Int 6)] [])].

Definition sample_tasks_get : object -> prog value :=
  cvat_tasks_get sample_TaskStatus sample_TaskMode sample_DimensionType
    keep_properties.

(** ** Vocabulary of the statements *)

(** The schema rejects an entry: its key is unknown, or its predicate does
    not accept the value. *)
Definition rejects (fields : schema) (key : string) (v : value) : bool :=
  match lookup fields key with
  | None => true
  | Some c => negb (accepts c v)
  end.

(** The two errors of the schema validator. *)
Definition schema_error (e : error) : bool :=
  match e with
  | InvalidFieldError _ | InvalidTypeError _ _ _ => true
  | _ => false
  end.

Definition is_jobs_request (r : request) : bool :=
  match r with
  | serverProxy_jobs_get _ => true
  | _ => false
  end.

(** The count a collection would have if the number of returned records
    stood in for a total that the answer does not carry. *)
Definition declared_or_length (data : listing) : value :=
  match count data with
  | Undefined => Num (Int (Z.of_nat (List.length (records data))))
  | declared => declared
  end.

(** What a project entity shows of a raw record: the record's [tasks]
    under the name [task_ids], and no property named [tasks]. *)
Definition exposes_task_ids (raw : object) (project : value) : Prop :=
  exists props,
    project = Obj (Some Project) props
    /\ lookup props "task_ids" = Some (get raw "tasks")
    /\ has_own props "tasks" = false.

(** The step of the loop of [translate]: the body of lines 220-222 and
    248-250. *)
Definition translate_step (filter searchParams : object) (field : string)
  : object :=
  if has_own filter field
  then set searchParams (camelToSnake field) (get filter field)
  else searchParams.

(** A caller that tries to activate several values, one after the other,
    and goes on after a failed attempt. *)
Definition activate_each (organizations : list value) (cfg : config) : config :=
  fold_left (fun cfg organization =>
               snd (cvat_organizations_activate organization cfg))
    organizations cfg.

(** A server that knows two organizations. *)
Definition server_with_organizations : server := {|
  users_self := Err (ServerError "offline");
  users_list := fun _ => Err (ServerError "offline");
  tasks_list := fun _ => Err (ServerError "offline");
  jobs_answer := fun _ => Err (ServerError "offline");
  projects_list := fun _ => Err (ServerError "offline");
  cloudStorages_list := fun _ => Err (ServerError "offline");
  organizations_list := Ok [[("slug", Str "acme")]; [("slug", Str "globex")]]
|}.

(** A constructor that refuses the record of id 2. *)
Definition refuse_id_2 (c : class) (raw : value) : result object :=
  match raw with
  | Obj _ props =>
      match lookup props "id" with
      | Some (Num (Int 2)) => Err (MalformedRecordError "id")
      | _ => Ok props
      end
  | _ => Ok []
  end.

(** * Properties *)

(** ** Objects *)

Lemma has_own_lookup {A : Type} (o : list (string * A)) (key : string) :
  has_own o key = true <-> exists v, lookup o key = Some v.
Proof.
  induction o as [|[k w] rest IH]; simpl.
  - split; [discriminate | intros [v Hv]; discriminate].
  - destruct (String.eqb k key).
    + split; [intros _; now exists w | reflexivity].
    + exact IH.
Qed.

Lemma has_own_false_lookup {A : Type} (o : list (string * A)) (key : string) :
  has_own o key = false <-> lookup o key = None.
Proof.
  induction o as [|[k w] rest IH]; simpl.
  - split; reflexivity.
  - destruct (String.eqb k key); [split; discriminate | exact IH].
Qed.

Lemma has_own_In_keys {A : Type} (o : list (string * A)) (key : string) :
  has_own o key = true <-> In key (keys o).
Proof.
  induction o as [|[k w] rest IH]; simpl.
  - split; [discriminate | contradiction].
  - destruct (String.eqb k key) eqn:E.
    + apply String.eqb_eq in E. split; auto.
    + apply String.eqb_neq in E. rewrite IH. split; [auto | intros [H|H]; congruence].
Qed.

Lemma lookup_set_same (o : object) (key : string) (v : value) :
  lookup (set o key v) key = Some v.
Proof.
  induction o as [|[k w] rest IH]; simpl.
  - now rewrite String.eqb_refl.
  - destruct (String.eqb k key) eqn:E; simpl; rewrite E; auto.
Qed.

Lemma lookup_set_other (o : object) (key key' : string) (v : value) :
  key <> key' -> lookup (set o key v) key' = lookup o key'.
Proof.
  intros Hne. induction o as [|[k w] rest IH]; simpl.
  - apply String.eqb_neq in Hne. now rewrite Hne.
  - destruct (String.eqb k key) eqn:E; simpl.
    + apply String.eqb_eq in E. subst k.
      apply String.eqb_neq in Hne. now rewrite Hne.
    + destruct (String.eqb k key'); auto.
Qed.

(** ** [URLSearchParams] *)

Lemma lookup_filter_other (params : URLSearchParams) (name name' : string) :
  name <> name' ->
  lookup (filter (fun nw => negb (String.eqb (fst nw) name)) params) name'
  = lookup params name'.
Proof.
  intros Hne. induction params as [|[n w] rest IH]; simpl; [reflexivity|].
  destruct (String.eqb n name) eqn:E; simpl.
  - apply String.eqb_eq in E. subst n.
    apply String.eqb_neq in Hne. now rewrite Hne.
  - rewrite IH. reflexivity.
Qed.

Lemma lookup_URLSearchParams_set_same (params : URLSearchParams) (name v : string) :
  lookup (URLSearchParams_set params name v) name = Some v.
Proof.
  induction params as [|[n w] rest IH]; simpl.
  - now rewrite String.eqb_refl.
  - destruct (String.eqb n name) eqn:E; simpl; rewrite E; auto.
Qed.

Lemma lookup_URLSearchParams_set_other (params : URLSearchParams) (name name' v : string) :
  name <> name' ->
  lookup (URLSearchParams_set params name v) name' = lookup params name'.
Proof.
  intros Hne. induction params as [|[n w] rest IH]; simpl.
  - apply String.eqb_neq in Hne. now rewrite Hne.
  - destruct (String.eqb n name) eqn:E; simpl.
    + apply String.eqb_eq in E. subst n.
      pose proof Hne as Hne'. apply String.eqb_neq in Hne'. rewrite Hne'.
      now apply lookup_filter_other.
    + destruct (String.eqb n name'); auto.
Qed.

(** ** Writing a query and reading it back *)

Lemma free_of_app (sep : ascii) (a b : string) :
  free_of sep (a ++ b) = (free_of sep a && free_of sep b)%bool.
Proof.
  induction a as [|c a IH]; [reflexivity|].
  cbn [append free_of]. rewrite IH. now rewrite andb_assoc.
Qed.

Lemma urlencode_byte_free (c : ascii) :
  free_of "&" (urlencode_byte c) = true /\ free_of "=" (urlencode_byte c) = true.
Proof. destruct c as [[] [] [] [] [] [] [] []]; split; reflexivity. Qed.

Lemma urlencode_free (s : string) :
  free_of "&" (urlencode s) = true /\ free_of "=" (urlencode s) = true.
Proof.
  induction s as [|c s [IHamp IHeq]]; [split; reflexivity|].
  cbn [urlencode]. rewrite !free_of_app, IHamp, IHeq.
  destruct (urlencode_byte_free c) as [-> ->]. split; reflexivity.
Qed.

Lemma urldecode_urlencode_byte (c : ascii) (rest : string) :
  urldecode (urlencode_byte c ++ rest) = String c (urldecode rest).
Proof. destruct c as [[] [] [] [] [] [] [] []]; reflexivity. Qed.

Lemma urldecode_urlencode (s : string) : urldecode (urlencode s) = s.
Proof.
  induction s as [|c s IH]; [reflexivity|].
  cbn [urlencode]. now rewrite urldecode_urlencode_byte, IH.
Qed.

Lemma cut_at_app (sep : ascii) (a b : string) :
  free_of sep a = true -> cut_at sep (a ++ String sep b) = (a, b).
Proof.
  induction a as [|c a IH]; intros Hfree.
  - cbn [append cut_at]. now rewrite Ascii.eqb_refl.
  - cbn [free_of] in Hfree. apply andb_true_iff in Hfree as [Hc Ha].
    apply negb_true_iff in Hc. cbn [append cut_at]. now rewrite Hc, (IH Ha).
Qed.

Lemma split_on_free (sep : ascii) (a : string) :
  free_of sep a = true -> split_on sep a = [a].
Proof.
  induction a as [|c a IH]; intros Hfree; [reflexivity|].
  cbn [free_of] in Hfree. apply andb_true_iff in Hfree as [Hc Ha].
  apply negb_true_iff in Hc. cbn [split_on]. now rewrite Hc, (IH Ha).
Qed.

Lemma split_on_app (sep : ascii) (a b : string) :
  free_of sep a = true ->
  split_on sep (a ++ String sep b) = a :: split_on sep b.
Proof.
  induction a as [|c a IH]; intros Hfree.
  - cbn [append split_on]. now rewrite Ascii.eqb_refl.
  - cbn [free_of] in Hfree. apply andb_true_iff in Hfree as [Hc Ha].
    apply negb_true_iff in Hc. cbn [append split_on]. now rewrite Hc, (IH Ha).
Qed.

Lemma append_not_empty (a : string) (c : ascii) (b : string) :
  String.eqb (a ++ String c b) EmptyString = false.
Proof. destruct a; reflexivity. Qed.

Lemma append_assoc (a b c : string) : ((a ++ b) ++ c = a ++ (b ++ c))%string.
Proof. induction a as [|x a IH]; [reflexivity|]. cbn [append]. now rewrite IH. Qed.

Lemma append_empty (a : string) : (a ++ EmptyString = a)%string.
Proof. induction a as [|x a IH]; [reflexivity|]. cbn [append]. now rewrite IH. Qed.

(** The text of a list of pairs reads back as that list. *)
Lemma urlencoded_parse_toString (params : URLSearchParams) :
  urlencoded_parse (URLSearchParams_toString params) = params.
Proof.
  induction params as [|[n v] rest IH]; [reflexivity|].
  destruct (urlencode_free n) as [Hn_amp Hn_eq].
  destruct (urlencode_free v) as [Hv_amp Hv_eq].
  assert (Hpiece : free_of "&" (urlencode n ++ String "=" (urlencode v)) = true)
    by (rewrite free_of_app; cbn [free_of]; now rewrite Hn_amp, Hv_amp).
  cbn [URLSearchParams_toString]. destruct rest as [|p rest'].
  - change ("=" ++ urlencode v ++ EmptyString)%string
      with (String "=" (urlencode v ++ EmptyString)).
    rewrite append_empty. unfold urlencoded_parse.
    rewrite (@split_on_free "&" _ Hpiece). cbn [filter].
    rewrite append_not_empty. cbn [negb map].
    rewrite (@cut_at_app "=" (urlencode n) (urlencode v) Hn_eq).
    now rewrite !urldecode_urlencode.
  - change ("=" ++ urlencode v ++ "&" ++ URLSearchParams_toString (p :: rest'))%string
      with (String "=" (urlencode v
                        ++ String "&" (URLSearchParams_toString (p :: rest')))).
    replace (urlencode n
             ++ String "=" (urlencode v
                            ++ String "&" (URLSearchParams_toString (p :: rest'))))%string
      with ((urlencode n ++ String "=" (urlencode v))
            ++ String "&" (URLSearchParams_toString (p :: rest')))%string
      by (rewrite append_assoc; reflexivity).
    unfold urlencoded_parse in *.
    rewrite (@split_on_app "&" _ (URLSearchParams_toString (p :: rest')) Hpiece). cbn [filter].
    rewrite append_not_empty. cbn [negb map].
    rewrite (@cut_at_app "=" (urlencode n) (urlencode v) Hn_eq), !urldecode_urlencode.
    now rewrite IH.
Qed.

(** ** Running a body *)

Lemma run_bind {A B : Type} (t : transport) (p : prog A) (f : A -> prog B) :
  forall log,
    run t log (bind p f) =
    match run t log p with
    | (Ok a, log') => run t log' (f a)
    | (Err e, log') => (Err e, log')
    end.
Proof.
  induction p as [a|e|r k IH]; intros log; simpl; auto.
  destruct (t log r); auto.
Qed.

Lemma run_lift {A : Type} (t : transport) (r : result A) (log : list request) :
  run t log (lift r) = (r, log).
Proof. destruct r; reflexivity. Qed.

Lemma run_await (t : transport) (r : request) (log : list request) :
  run t log (await r) = (t log r, (log ++ [r])%list).
Proof. unfold await; simpl. destruct (t log r); reflexivity. Qed.

(** A body that starts with a check stops there, before any call, when the
    check fails. *)
Lemma run_guard_fails {A B : Type} (t : transport) (check : result A)
  (rest : A -> prog B) (e : error) :
  check = Err e -> execute t (bind (lift check) rest) = (Err e, []).
Proof. intros ->. reflexivity. Qed.

Lemma run_guard_passes {A B : Type} (t : transport) (check : result A)
  (rest : A -> prog B) (a : A) :
  check = Ok a -> execute t (bind (lift check) rest) = execute t (rest a).
Proof. intros ->. reflexivity. Qed.

(** ** The schema validator *)

Lemma checkFilter_rejects (fields : schema) (filter : object) (key : string) (v : value) :
  In (key, v) filter -> rejects fields key v = true ->
  exists e, schema_error e = true /\ checkFilter filter fields = Err e.
Proof.
  intros Hin Hrej. induction filter as [|[k w] rest IH]; [contradiction|].
  simpl. destruct (lookup fields k) as [c|] eqn:Hk.
  - destruct (accepts c w) eqn:Hacc.
    + destruct Hin as [Heq|Hin]; [|auto].
      injection Heq as -> ->. unfold rejects in Hrej.
      rewrite Hk, Hacc in Hrej. discriminate.
    + eexists; split; [|reflexivity]. reflexivity.
  - eexists; split; [|reflexivity]. reflexivity.
Qed.

Lemma checkFilter_accepts (fields : schema) (filter : object) :
  checkFilter filter fields = Ok tt ->
  forall key v, In (key, v) filter ->
                exists c, lookup fields key = Some c /\ accepts c v = true.
Proof.
  induction filter as [|[k w] rest IH]; intros Hcheck key v Hin; [contradiction|].
  cbn [checkFilter] in Hcheck.
  destruct (lookup fields k) as [c|] eqn:Hk; [|discriminate].
  destruct (accepts c w) eqn:Hacc; [|discriminate].
  destruct Hin as [Heq|Hin].
  - injection Heq as <- <-. now exists c.
  - now apply (IH Hcheck key v).
Qed.

Lemma lookup_entry {A : Type} (o : list (string * A)) (key : string) (v : A) :
  lookup o key = Some v -> In (key, v) o.
Proof.
  induction o as [|[k w] rest IH]; simpl; [discriminate|].
  destruct (String.eqb k key) eqn:E.
  - apply String.eqb_eq in E. intros H. injection H as ->. subst. now left.
  - intros H. right. now apply IH.
Qed.

Lemma checkFilter_error_kind (fields : schema) (filter : object) (e : error) :
  checkFilter filter fields = Err e -> schema_error e = true.
Proof.
  induction filter as [|[k w] rest IH]; simpl; [discriminate|].
  destruct (lookup fields k) as [c|]; [destruct (accepts c w)|]; auto;
    intros H; injection H as <-; reflexivity.
Qed.

(** ** Mapping a constructor over the records *)

Lemma mapM_Forall2 {A B : Type} (f : A -> result B) (l : list A) (l' : list B) :
  mapM f l = Ok l' <-> Forall2 (fun x y => f x = Ok y) l l'.
Proof.
  revert l'. induction l as [|x rest IH]; intros l'; simpl.
  - split; intros H.
    + injection H as <-. constructor.
    + inversion H. reflexivity.
  - split; intros H.
    + destruct (f x) as [y|e] eqn:Hx; [|discriminate]. simpl in H.
      destruct (mapM f rest) as [ys|e] eqn:Hrest; [|discriminate].
      injection H as <-. constructor; [exact Hx | now apply IH].
    + inversion H as [|x0 y l0 ys Hx Hrest]; subst.
      rewrite Hx. simpl. apply IH in Hrest. now rewrite Hrest.
Qed.

Lemma mapM_map {A B C : Type} (f : B -> result C) (g : A -> B) (l : list A) :
  mapM f (map g l) = mapM (fun x => f (g x)) l.
Proof.
  induction l as [|x rest IH]; simpl; [reflexivity|]. now rewrite IH.
Qed.

Section Properties.

Variables TaskStatus TaskMode DimensionType : object.
Variables CloudStorageProviderType CloudStorageCredentialsType : object.
Variable construct : class -> value -> result object.
Variable unsafe_integer_text : Z -> string.

Local Abbreviation jobs_get := (cvat_jobs_get construct).
Local Abbreviation tasks_get :=
  (cvat_tasks_get TaskStatus TaskMode DimensionType construct).
Local Abbreviation projects_get := (cvat_projects_get TaskStatus construct).
Local Abbreviation cloudStorages_get :=
  (cvat_cloudStorages_get CloudStorageProviderType CloudStorageCredentialsType
     construct unsafe_integer_text).
Local Abbreviation users_get := (cvat_users_get construct).
Local Abbreviation tasks_fields_schema :=
  (tasks_schema TaskStatus TaskMode DimensionType).
Local Abbreviation cloudStorages_fields_schema :=
  (cloudStorages_schema CloudStorageProviderType CloudStorageCredentialsType).

(** ** Fetching jobs *)

(** C2: a filter that holds both [taskID] and [jobID] makes the jobs
    operation fail before any call of the transport; the error is the
    [ArgumentError] about the two conflicting fields as soon as the filter
    passes the schema check that precedes the test (a filter that does not
    fails there, with the validator's error). *)
Theorem jobs_get_conflicting_ids (t : transport) (filter : object) :
  has_own filter "taskID" = true ->
  has_own filter "jobID" = true ->
  (exists e, execute t (jobs_get filter) = (Err e, []))
  /\ (checkFilter filter jobs_schema = Ok tt ->
      execute t (jobs_get filter)
      = (Err (ArgumentError jobs_conflict_message), [])).
Proof.
  intros Htask Hjob. unfold cvat_jobs_get.
  destruct (checkFilter filter jobs_schema) as [[]|e].
  - unfold execute. cbn [lift bind]. rewrite Htask, Hjob. cbn [andb run].
    split; [eexists; reflexivity | reflexivity].
  - split; [eexists; reflexivity | discriminate].
Qed.

(** X5: the single-record fetch when the job is there: one call, and the
    collection holds the one entity made of the fetched record. *)
Lemma jobs_get_by_jobID_found (t : transport) (filter : object) (job : value) :
  checkFilter filter jobs_schema = Ok tt ->
  has_own filter "taskID" = false ->
  has_own filter "jobID" = true ->
  t [] (serverProxy_jobs_get [("id", get filter "jobID")]) = Ok job ->
  truthy job = true ->
  execute t (jobs_get filter)
  = (result_bind (new construct Job job) (fun entity => Ok (Arr [entity] [])),
     [serverProxy_jobs_get [("id", get filter "jobID")]]).
Proof.
  intros Hcheck Htask Hjob Hanswer Htruthy. unfold cvat_jobs_get.
  rewrite (run_guard_passes t _ Hcheck), Htask, Hjob. cbn [andb].
  unfold execute. rewrite run_bind, run_await, Hanswer, Htruthy.
  rewrite run_bind, run_lift.
  destruct (new construct Job job); reflexivity.
Qed.

(** The single-record fetch when the answer is falsy: the body goes on to
    the paginated query with the whole filter. *)
Lemma jobs_get_by_jobID_missing (t : transport) (filter : object) (job : value) :
  checkFilter filter jobs_schema = Ok tt ->
  has_own filter "taskID" = false ->
  has_own filter "jobID" = true ->
  t [] (serverProxy_jobs_get [("id", get filter "jobID")]) = Ok job ->
  truthy job = false ->
  execute t (jobs_get filter)
  = run t [serverProxy_jobs_get [("id", get filter "jobID")]]
      (jobs_query construct filter).
Proof.
  intros Hcheck Htask Hjob Hanswer Hfalsy. unfold cvat_jobs_get.
  rewrite (run_guard_passes t _ Hcheck), Htask, Hjob. cbn [andb].
  unfold execute. rewrite run_bind, run_await, Hanswer, Hfalsy.
  reflexivity.
Qed.

(** C7: with [taskID] and without [jobID], the jobs operation never calls
    the jobs endpoint; once the filter has passed the schema check it
    makes exactly one call, the fetch of the task of that id, and gives
    the [jobs] of the entity built from the first record, or the empty
    array when the answer holds no record. *)
Theorem jobs_get_by_taskID (t : transport) (filter : object) :
  has_own filter "taskID" = true ->
  has_own filter "jobID" = false ->
  forallb (fun r => negb (is_jobs_request r)) (snd (execute t (jobs_get filter)))
  = true
  /\ (checkFilter filter jobs_schema = Ok tt ->
      let owner := serverProxy_tasks_get [("id", get filter "taskID")] in
      execute t (jobs_get filter)
      = (match t [] owner with
         | Ok tasks =>
             match records tasks with
             | task :: _ =>
                 result_bind (new construct Task (Obj None task))
                   (fun entity => property entity "jobs")
             | [] => Ok (Arr [] [])
             end
         | Err e => Err e
         end, [owner])).
Proof.
  intros Htask Hjob.
  assert (Hrun : checkFilter filter jobs_schema = Ok tt ->
            let owner := serverProxy_tasks_get [("id", get filter "taskID")] in
            execute t (jobs_get filter)
            = (match t [] owner with
               | Ok tasks =>
                   match records tasks with
                   | task :: _ =>
                       result_bind (new construct Task (Obj None task))
                         (fun entity => property entity "jobs")
                   | [] => Ok (Arr [] [])
                   end
               | Err e => Err e
               end, [owner])).
  { intros Hcheck owner. unfold cvat_jobs_get.
    rewrite (run_guard_passes t _ Hcheck), Htask, Hjob. cbn [andb].
    unfold execute. rewrite run_bind, run_await. fold owner.
    destruct (t [] owner) as [tasks|e]; [|reflexivity].
    destruct (records tasks) as [|task rest]; [reflexivity|].
    rewrite run_bind, run_lift. unfold new_record.
    destruct (new construct Task (Obj None task)) as [entity|e]; [|reflexivity].
    simpl. now rewrite run_lift. }
  split; [|exact Hrun].
  destruct (checkFilter filter jobs_schema) as [[]|e] eqn:Hcheck.
  - rewrite (Hrun eq_refl). reflexivity.
  - unfold cvat_jobs_get. now rewrite (run_guard_fails t _ Hcheck).
Qed.

(** ** The list operations past their checks *)

Lemma run_adapt (t : transport) (c : class) (data : listing) (log : list request) :
  run t log (adapt construct c data) = (collection construct c data, log).
Proof.
  unfold adapt, collection. rewrite run_bind, run_lift.
  destruct (mapM (new_record construct c) (records data)); reflexivity.
Qed.

Lemma tasks_get_runs (t : transport) (filter : object) :
  checkFilter filter tasks_fields_schema = Ok tt ->
  checkExclusiveFields filter ["id"; "search"; "projectId"] ["page"] = Ok tt ->
  execute t (tasks_get filter)
  = (result_bind (t [] (serverProxy_tasks_get (translate filter tasks_fields)))
       (collection construct Task),
     [serverProxy_tasks_get (translate filter tasks_fields)]).
Proof.
  intros Hschema Hexclusive. unfold cvat_tasks_get.
  rewrite (run_guard_passes t _ Hschema), (run_guard_passes t _ Hexclusive).
  unfold execute. rewrite run_bind, run_await.
  destruct (t [] _) as [data|e]; [|reflexivity].
  apply run_adapt.
Qed.

(** ** Exclusive fields *)

(** C3: for the tasks operation, whose exclusivity group is [id],
    [search], [projectId] with the companion [page]: a filter holding two
    distinct members of the group fails the exclusivity check with
    [ConflictingFieldsError] naming both, and the operation, once the
    schema check has passed, fails with that error before any call; a
    filter holding one member and otherwise only companions passes the
    check. The filter with [id] 5 and [search] x fails, the filter with
    [id] 5 and [page] 2 passes and reaches the transport. *)
Theorem tasks_get_exclusive_fields :
  (forall (filter : object) (a b : string),
      In a ["id"; "search"; "projectId"] ->
      In b ["id"; "search"; "projectId"] ->
      a <> b ->
      has_own filter a = true ->
      has_own filter b = true ->
      exists fields,
        In a fields /\ In b fields
        /\ checkExclusiveFields filter ["id"; "search"; "projectId"] ["page"]
           = Err (ConflictingFieldsError fields)
        /\ (checkFilter filter tasks_fields_schema = Ok tt ->
            forall t, execute t (tasks_get filter)
                      = (Err (ConflictingFieldsError fields), [])))
  /\ (forall (filter : object) (g : string),
         In g ["id"; "search"; "projectId"] ->
         has_own filter g = true ->
         (forall k, has_own filter k = true -> k = g \/ In k ["page"]) ->
         checkExclusiveFields filter ["id"; "search"; "projectId"] ["page"]
         = Ok tt)
  /\ (forall t,
         execute t (tasks_get [("id", Num (Int 5)); ("search", Str "x")])
         = (Err (ConflictingFieldsError ["id"; "search"]), []))
  /\ (forall t,
         snd (execute t (tasks_get [("id", Num (Int 5)); ("page", Num (Int 2))]))
         = [serverProxy_tasks_get [("id", Num (Int 5)); ("page", Num (Int 2))]]).
Proof.
  split; [|split; [|split]].
  - intros filter a b Ha Hb Hab Hhas_a Hhas_b.
    exists (List.filter (has_own filter) ["id"; "search"; "projectId"]).
    assert (Hin_a : In a (List.filter (has_own filter) ["id"; "search"; "projectId"]))
      by (apply filter_In; split; assumption).
    assert (Hin_b : In b (List.filter (has_own filter) ["id"; "search"; "projectId"]))
      by (apply filter_In; split; assumption).
    assert (Hlen : 2 <= List.length
                          (List.filter (has_own filter) ["id"; "search"; "projectId"])).
    { change 2 with (List.length [a; b]). apply NoDup_incl_length.
      - constructor; [intros [H|[]]; congruence|].
        constructor; [intros []|constructor].
      - intros x [<-|[<-|[]]]; assumption. }
    assert (Hcheck : checkExclusiveFields filter ["id"; "search"; "projectId"] ["page"]
                     = Err (ConflictingFieldsError
                              (List.filter (has_own filter) ["id"; "search"; "projectId"]))).
    { unfold checkExclusiveFields.
      destruct (Nat.ltb_spec 1
                  (List.length (List.filter (has_own filter) ["id"; "search"; "projectId"])));
        [reflexivity | lia]. }
    repeat split; try assumption.
    intros Hschema t. unfold cvat_tasks_get.
    rewrite (run_guard_passes t _ Hschema).
    apply run_guard_fails. exact Hcheck.
  - intros filter g Hg Hhas Honly. unfold checkExclusiveFields.
    destruct (has_own filter "id") eqn:Hid;
      destruct (has_own filter "search") eqn:Hsearch;
      destruct (has_own filter "projectId") eqn:Hproject;
      cbn [List.filter]; rewrite ?Hid, ?Hsearch, ?Hproject; try reflexivity;
      exfalso;
      repeat match goal with
             | H : has_own filter ?k = true |- _ =>
                 let H' := fresh in
                 pose proof (Honly _ H) as H'; clear H;
                 destruct H' as [H'|[H'|[]]]
             end;
      congruence.
  - intros t. reflexivity.
  - intros t. now rewrite tasks_get_runs.
Qed.

(** ** Validation comes first *)

(** C8: a filter with an entry that the schema rejects (unknown key, or
    value failing its predicate) makes the operation report one of the two
    schema-validation errors, before any call and whatever mutually
    exclusive fields the filter also holds: the exclusivity check only
    runs once the validator has succeeded. This holds for the tasks
    operation and for the three others that check field combinations. *)
Theorem schema_error_reported_first
  (t : transport) (filter : object) (key : string) (v : value) :
  In (key, v) filter ->
  (rejects tasks_fields_schema key v = true ->
   exists e, schema_error e = true
             /\ execute t (tasks_get filter) = (Err e, []))
  /\ (rejects (projects_schema TaskStatus) key v = true ->
      exists e, schema_error e = true
                /\ execute t (projects_get filter) = (Err e, []))
  /\ (rejects cloudStorages_fields_schema key v = true ->
      exists e, schema_error e = true
                /\ execute t (cloudStorages_get filter) = (Err e, []))
  /\ (rejects jobs_schema key v = true ->
      exists e, schema_error e = true
                /\ execute t (jobs_get filter) = (Err e, [])).
Proof.
  intros Hin. repeat split; intros Hrej;
    destruct (checkFilter_rejects _ _ _ _ Hin Hrej) as [e [Hkind Hcheck]];
    exists e; (split; [exact Hkind|]);
    apply run_guard_fails; exact Hcheck.
Qed.

(** ** Collections *)

Lemma jobs_query_runs (t : transport) (filter : object) (log : list request)
  (jobsData total : value) (elems : list value) (props : object) :
  t log (serverProxy_jobs_get filter) = Ok jobsData ->
  property jobsData "results" = Ok (Arr elems props) ->
  property jobsData "count" = Ok total ->
  run t log (jobs_query construct filter)
  = (result_bind (mapM (new construct Job) elems)
       (fun jobs => Ok (Arr jobs [("count", total)])),
     (log ++ [serverProxy_jobs_get filter])%list).
Proof.
  intros Hanswer Hresults Hcount. unfold jobs_query.
  rewrite run_bind, run_await, Hanswer, Hresults. cbn [lift bind].
  rewrite run_bind, run_lift.
  destruct (mapM (new construct Job) elems) as [jobs|e]; [|reflexivity].
  rewrite Hcount. reflexivity.
Qed.

(** C5, as the code has it: the collection made of a transport answer
    holds one entity per raw record, in the order of the answer, and its
    [count] is the [count] of the answer, whatever that is. For the tasks
    operation the answer is the list with its [count]; for the paginated
    jobs query it is the object with [results] and [count]. The length of
    the list is never put in the place of a count that is not there. *)
Theorem collection_keeps_order_and_count :
  (forall (t : transport) (filter : object) (data : listing)
          (entities : list value),
      checkFilter filter tasks_fields_schema = Ok tt ->
      checkExclusiveFields filter ["id"; "search"; "projectId"] ["page"] = Ok tt ->
      t [] (serverProxy_tasks_get (translate filter tasks_fields)) = Ok data ->
      Forall2 (fun raw entity => new construct Task (Obj None raw) = Ok entity)
        (records data) entities ->
      execute t (tasks_get filter)
      = (Ok (Arr entities [("count", count data)]),
         [serverProxy_tasks_get (translate filter tasks_fields)]))
  /\ (forall (t : transport) (filter : object) (jobsData total : value)
             (elems : list value) (props : object) (entities : list value),
         checkFilter filter jobs_schema = Ok tt ->
         has_own filter "taskID" = false ->
         has_own filter "jobID" = false ->
         t [] (serverProxy_jobs_get filter) = Ok jobsData ->
         property jobsData "results" = Ok (Arr elems props) ->
         property jobsData "count" = Ok total ->
         Forall2 (fun raw entity => new construct Job raw = Ok entity)
           elems entities ->
         execute t (jobs_get filter)
         = (Ok (Arr entities [("count", total)]),
            [serverProxy_jobs_get filter])).
Proof.
  split.
  - intros t filter data entities Hschema Hexclusive Hanswer Hentities.
    rewrite (tasks_get_runs t _ Hschema Hexclusive), Hanswer.
    assert (Hmap : mapM (new_record construct Task) (records data) = Ok entities)
      by (apply mapM_Forall2; exact Hentities).
    cbn [result_bind]. unfold collection. now rewrite Hmap.
  - intros t filter jobsData total elems props entities
      Hschema Htask Hjob Hanswer Hresults Hcount Hentities.
    unfold cvat_jobs_get.
    rewrite (run_guard_passes t _ Hschema), Htask, Hjob. cbn [andb].
    unfold execute. rewrite (jobs_query_runs _ _ Hanswer Hresults Hcount).
    apply mapM_Forall2 in Hentities. now rewrite Hentities.
Qed.

(** ** Projects *)

Lemma new_Project_with_task_ids (raw : object) (project : value) :
  new construct Project (Obj None (with_task_ids raw)) = Ok project ->
  exists id, lookup raw "id" = Some id
             /\ project = Obj (Some Project)
                            [("id", id); ("task_ids", get raw "tasks")].
Proof.
  unfold new, Project_constructor, with_task_ids, Project_fields.
  cbn [mapM]. unfold read_field. cbn [fst snd].
  rewrite lookup_set_same.
  rewrite (@lookup_set_other raw "task_ids" "id") by discriminate.
  destruct (lookup raw "id") as [id|]; [|discriminate].
  destruct id as [| |b|[z| |text]|s|elems props|cls props]; try discriminate.
  cbn [result_bind].
  destruct (get raw "tasks") as [| |b|n|s|elems props|cls props];
    try discriminate.
  cbn [result_bind]. intros H. injection H as <-.
  eexists. split; reflexivity.
Qed.

Lemma new_Project_well_formed (raw : object) (z : Z) (elems : list value)
  (props : object) :
  lookup raw "id" = Some (Num (Int z)) ->
  get raw "tasks" = Arr elems props ->
  new construct Project (Obj None (with_task_ids raw))
  = Ok (Obj (Some Project) [("id", Num (Int z)); ("task_ids", Arr elems props)]).
Proof.
  intros Hid Htasks.
  unfold new, Project_constructor, with_task_ids, Project_fields.
  cbn [mapM]. unfold read_field. cbn [fst snd].
  rewrite lookup_set_same.
  rewrite (@lookup_set_other raw "task_ids" "id") by discriminate.
  rewrite Hid, Htasks. reflexivity.
Qed.

Lemma projects_get_runs (t : transport) (filter : object) :
  checkFilter filter (projects_schema TaskStatus) = Ok tt ->
  checkExclusiveFields filter ["id"; "search"] ["page"] = Ok tt ->
  execute t (projects_get filter)
  = (result_bind (t [] (serverProxy_projects_get (translate filter projects_fields)))
       (fun data =>
          collection construct Project
            {| records := map with_task_ids (records data);
               count := count data |}),
     [serverProxy_projects_get (translate filter projects_fields)]).
Proof.
  intros Hschema Hexclusive. unfold cvat_projects_get.
  rewrite (run_guard_passes t _ Hschema), (run_guard_passes t _ Hexclusive).
  unfold execute. rewrite run_bind, run_await.
  destruct (t [] _) as [data|e]; [|reflexivity].
  apply run_adapt.
Qed.

(** C6: whenever the projects operation returns, its collection holds,
    for each raw record of the answer and in order, a [Project] entity
    that shows the record's [tasks] under the name [task_ids] and has no
    property [tasks]; and it does return, after its one call, when the
    checks pass and every record holds an integer [id] and a list
    [tasks]. *)
Theorem projects_get_exposes_task_ids
  (t : transport) (filter : object) (data : listing) :
  t [] (serverProxy_projects_get (translate filter projects_fields)) = Ok data ->
  (forall (projects : value) (log : list request),
      execute t (projects_get filter) = (Ok projects, log) ->
      exists entities,
        projects = Arr entities [("count", count data)]
        /\ Forall2 exposes_task_ids (records data) entities)
  /\ (checkFilter filter (projects_schema TaskStatus) = Ok tt ->
      checkExclusiveFields filter ["id"; "search"] ["page"] = Ok tt ->
      Forall (fun raw =>
                (exists z, lookup raw "id" = Some (Num (Int z)))
                /\ (exists elems props, get raw "tasks" = Arr elems props))
        (records data) ->
      exists entities,
        execute t (projects_get filter)
        = (Ok (Arr entities [("count", count data)]),
           [serverProxy_projects_get (translate filter projects_fields)])).
Proof.
  intros Hanswer. split.
  - intros projects log Hrun. unfold cvat_projects_get in Hrun.
    destruct (checkFilter filter (projects_schema TaskStatus)) as [[]|e];
      [|discriminate].
    destruct (checkExclusiveFields filter ["id"; "search"] ["page"]) as [[]|e];
      [|discriminate].
    unfold execute in Hrun. cbn [lift bind] in Hrun.
    rewrite run_bind, run_await, Hanswer, run_adapt in Hrun.
    unfold collection in Hrun. cbn [records count] in Hrun.
    destruct (mapM _ _) as [entities|e] eqn:Hmap; [|discriminate].
    injection Hrun as <- _. exists entities. split; [reflexivity|].
    unfold new_record in Hmap. rewrite mapM_map in Hmap.
    apply mapM_Forall2 in Hmap.
    induction Hmap as [|raw project raws rest Hnew _ IH]; constructor; [|exact IH].
    destruct (new_Project_with_task_ids _ Hnew) as [id [_ ->]].
    eexists. repeat split.
  - intros Hschema Hexclusive Hshape.
    rewrite (projects_get_runs t _ Hschema Hexclusive), Hanswer.
    cbn [result_bind]. unfold collection, new_record.
    cbn [records count]. rewrite mapM_map.
    assert (Hall : exists entities,
               mapM (fun raw => new construct Project (Obj None (with_task_ids raw)))
                 (records data) = Ok entities).
    { induction Hshape as [|raw raws [[z Hid] [elems [props Htasks]]] _ IH].
      - now exists [].
      - destruct IH as [rest Hrest]. cbn [mapM].
        rewrite (new_Project_well_formed _ Hid Htasks), Hrest.
        eexists. reflexivity. }
    destruct Hall as [entities ->]. now exists entities.
Qed.

(** ** The wire query of the cloud storages *)

Lemma cloudStorages_loop_skips (filter : object) (name : string)
  (fields : list string) (searchParams : URLSearchParams) :
  forallb (fun field => negb (String.eqb (camelToSnake field) name)) fields = true ->
  lookup (fold_left (cloudStorages_step unsafe_integer_text filter) fields searchParams) name
  = lookup searchParams name.
Proof.
  revert searchParams.
  induction fields as [|field rest IH]; intros searchParams Hnames;
    [reflexivity|].
  cbn [forallb] in Hnames. apply andb_true_iff in Hnames as [Hname Hrest].
  cbn [fold_left]. rewrite (IH _ Hrest). unfold cloudStorages_step.
  destruct (has_own filter field); [|reflexivity].
  apply lookup_URLSearchParams_set_other.
  apply String.eqb_neq. now apply negb_true_iff.
Qed.

(** The names in the list of pairs that lines 282-300 build, for any
    filter. *)
Lemma cloudStorages_searchParams_names (filter : object) :
  (has_own filter "providerType" = true ->
   lookup (cloudStorages_searchParams unsafe_integer_text filter) "provider_type"
   = Some (ToString unsafe_integer_text (get filter "providerType")))
  /\ (has_own filter "resourceName" = true ->
      lookup (cloudStorages_searchParams unsafe_integer_text filter) "resource"
      = Some (ToString unsafe_integer_text (get filter "resourceName")))
  /\ lookup (cloudStorages_searchParams unsafe_integer_text filter) "resource_name" = None
  /\ (forall t r,
         In r (snd (execute t (cloudStorages_get filter))) ->
         r = serverProxy_cloudStorages_get
               (URLSearchParams_toString (cloudStorages_searchParams unsafe_integer_text filter)))
  /\ camelToSnake "providerType" = "provider_type".
Proof.
  unfold cloudStorages_searchParams.
  split; [|split; [|split; [|split; [|reflexivity]]]].
  - intros Hprovider.
    assert (Hloop : lookup (fold_left (cloudStorages_step unsafe_integer_text filter)
                              cloudStorages_fields []) "provider_type"
                    = Some (ToString unsafe_integer_text (get filter "providerType"))).
    { change cloudStorages_fields
        with (["displayName"; "credentialsType"] ++ ["providerType"]
              ++ ["owner"; "search"; "id"; "page"; "description"])%list.
      rewrite !fold_left_app.
      rewrite cloudStorages_loop_skips by reflexivity.
      cbn [fold_left]. unfold cloudStorages_step at 1. rewrite Hprovider.
      apply lookup_URLSearchParams_set_same. }
    destruct (has_own filter "resourceName"); [|exact Hloop].
    rewrite lookup_URLSearchParams_set_other by discriminate. exact Hloop.
  - intros Hresource. rewrite Hresource.
    apply lookup_URLSearchParams_set_same.
  - destruct (has_own filter "resourceName").
    + rewrite lookup_URLSearchParams_set_other by discriminate.
      now rewrite cloudStorages_loop_skips by reflexivity.
    + now rewrite cloudStorages_loop_skips by reflexivity.
  - intros t r. unfold cvat_cloudStorages_get, cloudStorages_searchParams.
    destruct (checkFilter filter cloudStorages_fields_schema) as [[]|e];
      [|intros []].
    destruct (checkExclusiveFields filter ["id"; "search"] ["page"]) as [[]|e];
      [|intros []].
    unfold execute. cbn [lift bind]. rewrite run_bind, run_await.
    destruct (t [] _) as [data|e].
    + rewrite run_adapt. cbn [snd app]. intros [<-|[]]. reflexivity.
    + cbn [snd app]. intros [<-|[]]. reflexivity.
Qed.

(** C4: when the cloud storages operation sends its query, that is once the
    filter has passed the two checks, it makes one call, and the text it
    sends reads, as a form-urlencoded query: under the name [provider_type]
    the text of the filter's [providerType] (the string itself when it is a
    string), under the name [resource] the filter's [resourceName], and
    nothing under [resource_name]. [provider_type] is what the general rule
    makes of [providerType]; [resource] is the special case. *)
Theorem cloudStorages_query_names (t : transport) (filter : object) :
  checkFilter filter cloudStorages_fields_schema = Ok tt ->
  checkExclusiveFields filter ["id"; "search"] ["page"] = Ok tt ->
  exists query,
    snd (execute t (cloudStorages_get filter))
    = [serverProxy_cloudStorages_get query]
    /\ (forall v,
           lookup filter "providerType" = Some v ->
           lookup (urlencoded_parse query) "provider_type"
           = Some (ToString unsafe_integer_text v))
    /\ (forall s,
           lookup filter "providerType" = Some (Str s) ->
           lookup (urlencoded_parse query) "provider_type" = Some s)
    /\ (forall v,
           lookup filter "resourceName" = Some v ->
           exists s, v = Str s
                     /\ lookup (urlencoded_parse query) "resource" = Some s)
    /\ lookup (urlencoded_parse query) "resource_name" = None
    /\ camelToSnake "providerType" = "provider_type".
Proof.
  intros Hschema Hexclusive.
  exists (URLSearchParams_toString (cloudStorages_searchParams unsafe_integer_text filter)).
  rewrite urlencoded_parse_toString.
  destruct (cloudStorages_searchParams_names filter)
    as [Hprovider [Hresource [Hnone _]]].
  assert (Hvalue : forall key v, lookup filter key = Some v ->
                                 has_own filter key = true /\ get filter key = v).
  { intros key v Hkey. split.
    - apply has_own_lookup. now exists v.
    - unfold get. now rewrite Hkey. }
  split; [|split; [|split; [|split; [|split]]]].
  - unfold cvat_cloudStorages_get.
    rewrite (run_guard_passes t _ Hschema), (run_guard_passes t _ Hexclusive).
    unfold execute. rewrite run_bind, run_await.
    destruct (t [] _) as [data|e]; [|reflexivity].
    now rewrite run_adapt.
  - intros v Hkey. destruct (Hvalue _ _ Hkey) as [Hhas Hget].
    now rewrite (Hprovider Hhas), Hget.
  - intros s Hkey. destruct (Hvalue _ _ Hkey) as [Hhas Hget].
    now rewrite (Hprovider Hhas), Hget.
  - intros v Hkey. destruct (Hvalue _ _ Hkey) as [Hhas Hget].
    destruct (checkFilter_accepts _ _ Hschema _ _ (lookup_entry _ _ Hkey))
      as [c [Hc Haccepts]].
    cbn in Hc. injection Hc as <-.
    destruct v; try discriminate.
    exists s. split; [reflexivity|].
    now rewrite (Hresource Hhas), Hget.
  - exact Hnone.
  - reflexivity.
Qed.

(** ** The wire query of the users *)

Lemma users_loop_lookup (filter : object) (key : string) (ks : list string)
  (searchParams : object) :
  lookup (fold_left (users_step filter) ks searchParams) key
  = if (existsb (String.eqb key) ks
        && (truthy (get filter key) && negb (String.eqb key "self")))%bool
    then Some (get filter key)
    else lookup searchParams key.
Proof.
  revert searchParams.
  induction ks as [|k rest IH]; intros searchParams; [reflexivity|].
  cbn [fold_left existsb]. rewrite IH. unfold users_step.
  destruct (String.eqb key k) eqn:Ek.
  - apply String.eqb_eq in Ek. subst k. cbn [orb andb].
    destruct (truthy (get filter key) && negb (String.eqb key "self"))%bool.
    + rewrite lookup_set_same. now destruct (existsb _ rest).
    + now rewrite andb_false_r.
  - cbn [orb].
    destruct (truthy (get filter k) && negb (String.eqb k "self"))%bool;
      [|reflexivity].
    rewrite lookup_set_other; [reflexivity|].
    apply String.eqb_neq in Ek. congruence.
Qed.

Lemma existsb_eqb_keys (filter : object) (key : string) :
  existsb (String.eqb key) (keys filter) = has_own filter key.
Proof.
  induction filter as [|[k w] rest IH]; [reflexivity|].
  cbn [keys map fst existsb has_own]. rewrite String.eqb_sym.
  destruct (String.eqb k key); [reflexivity | exact IH].
Qed.

(** C9: the query that the users operation builds holds exactly the
    entries of the filter whose value is truthy and whose key is not
    [self]: an entry with a falsy value, and [self] itself, are left out.
    When the filter has passed the schema check and its [self] is absent
    or falsy, the operation makes one call, the users fetch with that
    query. *)
Theorem users_query_keeps_truthy_entries (filter : object) :
  (forall key v,
      lookup (users_searchParams filter) key = Some v
      <-> lookup filter key = Some v /\ truthy v = true /\ key <> "self")
  /\ (forall t,
         checkFilter filter users_schema = Ok tt ->
         (has_own filter "self" && truthy (get filter "self"))%bool = false ->
         snd (execute t (users_get filter))
         = [serverProxy_users_get (users_searchParams filter)]).
Proof.
  split.
  - intros key v. unfold users_searchParams.
    rewrite users_loop_lookup, existsb_eqb_keys. cbn [lookup].
    unfold get. destruct (lookup filter key) as [w|] eqn:Hkey.
    + assert (Hhas : has_own filter key = true)
        by (apply has_own_lookup; now exists w).
      rewrite Hhas. cbn [andb].
      destruct (truthy w) eqn:Htruthy; cbn [andb].
      * destruct (String.eqb key "self") eqn:Hself; cbn [negb].
        -- apply String.eqb_eq in Hself.
           split; [discriminate | intros [_ [_ H]]; contradiction].
        -- apply String.eqb_neq in Hself.
           split; [intros H; injection H as <-; auto
                  | intros [H _]; exact H].
      * split; [discriminate | intros [H [Ht _]]; congruence].
    + assert (Hhas : has_own filter key = false)
        by (now apply has_own_false_lookup).
      rewrite Hhas. cbn [andb].
      split; [discriminate | intros [H _]; discriminate].
  - intros t Hschema Hself. unfold cvat_users_get.
    rewrite (run_guard_passes t _ Hschema), Hself. cbv iota.
    unfold execute.
    rewrite run_bind, (run_await t (serverProxy_users_get (users_searchParams filter))).
    destruct (t [] _) as [users|e]; [|reflexivity].
    rewrite run_bind, run_lift.
    destruct (mapM _ users); reflexivity.
Qed.

(** ** The active organization *)

(** C10: activation fails with the type error for every argument that is
    not an [Organization] instance, and then leaves the marker as it was;
    for an instance it succeeds and the marker is the instance's [slug];
    deactivation always sets the marker to [null]. *)
Theorem organizations_marker (organization : value) (cfg : config) :
  (instance_of organization Organization = false ->
   cvat_organizations_activate organization cfg
   = (Err (InvalidTypeError "organization" "Organization" organization), cfg))
  /\ (instance_of organization Organization = true ->
      exists props,
        organization = Obj (Some Organization) props
        /\ cvat_organizations_activate organization cfg
           = (Ok tt, {| organizationID := get props "slug" |}))
  /\ cvat_organizations_deactivate cfg = (Ok tt, {| organizationID := Null |}).
Proof.
  unfold cvat_organizations_activate, checkObjectType. split; [|split].
  - intros ->. reflexivity.
  - intros Hinstance. rewrite Hinstance.
    destruct organization as [| |b|n|s|elems props|[c|] props];
      try discriminate.
    destruct c; try discriminate.
    exists props. split; reflexivity.
  - reflexivity.
Qed.

End Properties.

(** ** Concrete runs *)

(** C1, at the filter with [jobID] 7 against a server whose single-record
    fetch gives [null]: the operation does not return the empty collection;
    it goes on to the paginated query with the whole filter and returns what
    that query gives, here one job under the count 1. *)
Theorem jobs_get_missing_job_runs_the_query :
  execute (serve server_without_job_7)
    (cvat_jobs_get keep_properties [("jobID", Num (Int 7))])
  = (Ok (Arr [Obj (Some Job) (record_of_id 9)] [("count", Num (Int 1))]),
     [serverProxy_jobs_get [("id", Num (Int 7))];
      serverProxy_jobs_get [("jobID", Num (Int 7))]]).
Proof. reflexivity. Qed.

Lemma jobs_get_conflicting_ids_witness :
  execute (serve offline)
    (cvat_jobs_get keep_properties
       [("taskID", Num (Int 1)); ("jobID", Num (Int 2))])
  = (Err (ArgumentError jobs_conflict_message), []).
Proof.
  apply (proj2 (@jobs_get_conflicting_ids keep_properties (serve offline)
                  [("taskID", Num (Int 1)); ("jobID", Num (Int 2))]
                  eq_refl eq_refl)).
  reflexivity.
Defined.

Lemma jobs_get_by_taskID_witness :
  execute (serve (server_with
                    {| records := [[("id", Num (Int 3));
                                    ("jobs", Arr [Num (Int 11)] [])]];
                       count := Num (Int 1) |} Null))
    (cvat_jobs_get keep_properties [("taskID", Num (Int 3))])
  = (Ok (Arr [Num (Int 11)] []), [serverProxy_tasks_get [("id", Num (Int 3))]]).
Proof.
  apply (proj2 (@jobs_get_by_taskID keep_properties
                  (serve (server_with
                            {| records := [[("id", Num (Int 3));
                                            ("jobs", Arr [Num (Int 11)] [])]];
                               count := Num (Int 1) |} Null))
                  [("taskID", Num (Int 3))] eq_refl eq_refl)).
  reflexivity.
Defined.

Lemma tasks_get_exclusive_fields_witness :
  (exists fields,
      In "search" fields /\ In "projectId" fields
      /\ checkExclusiveFields [("search", Str "x"); ("projectId", Num (Int 2))]
           ["id"; "search"; "projectId"] ["page"]
         = Err (ConflictingFieldsError fields))
  /\ checkExclusiveFields [("projectId", Num (Int 2)); ("page", Num (Int 4))]
       ["id"; "search"; "projectId"] ["page"]
     = Ok tt.
Proof.
  destruct (@tasks_get_exclusive_fields sample_TaskStatus sample_TaskMode
              sample_DimensionType keep_properties) as [Hconflict [Hpass _]].
  split.
  - assert (Hsearch : In "search" ["id"; "search"; "projectId"])
      by (right; left; reflexivity).
    assert (Hproject : In "projectId" ["id"; "search"; "projectId"])
      by (right; right; left; reflexivity).
    assert (Hdistinct : "search" <> "projectId") by discriminate.
    destruct (Hconflict [("search", Str "x"); ("projectId", Num (Int 2))]
                "search" "projectId" Hsearch Hproject Hdistinct eq_refl eq_refl)
      as [fields [Ha [Hb [Hcheck _]]]].
    exists fields. repeat split; assumption.
  - assert (Hproject : In "projectId" ["id"; "search"; "projectId"])
      by (right; right; left; reflexivity).
    apply (Hpass [("projectId", Num (Int 2)); ("page", Num (Int 4))]
             "projectId" Hproject eq_refl).
    intros k. cbn [has_own].
    destruct (String.eqb "projectId" k) eqn:E1.
    + intros _. left. symmetry. now apply String.eqb_eq.
    + destruct (String.eqb "page" k) eqn:E2; [|discriminate].
      intros _. right. left. now apply String.eqb_eq.
Defined.

Lemma schema_error_reported_first_witness :
  exists e,
    schema_error e = true
    /\ execute (serve offline)
         (sample_tasks_get
            [("id", Num (Int 5)); ("search", Str "x"); ("colour", Str "red")])
       = (Err e, []).
Proof.
  assert (Hentry : In ("colour", Str "red")
                     [("id", Num (Int 5)); ("search", Str "x");
                      ("colour", Str "red")])
    by (right; right; left; reflexivity).
  exact (proj1 (@schema_error_reported_first sample_TaskStatus sample_TaskMode
                  sample_DimensionType sample_ProviderType sample_CredentialsType
                  keep_properties sample_unsafe_integer_text (serve offline)
                  _ _ _ Hentry) eq_refl).
Defined.

Lemma cloudStorages_query_names_witness :
  exists query,
    snd (execute (serve offline)
           (cvat_cloudStorages_get sample_ProviderType sample_CredentialsType
              keep_properties sample_unsafe_integer_text
              [("providerType", Str "AWS_S3_BUCKET");
               ("resourceName", Str "my bucket")]))
    = [serverProxy_cloudStorages_get query]
    /\ lookup (urlencoded_parse query) "provider_type" = Some "AWS_S3_BUCKET"
    /\ lookup (urlencoded_parse query) "resource" = Some "my bucket".
Proof.
  destruct (@cloudStorages_query_names sample_ProviderType sample_CredentialsType
              keep_properties sample_unsafe_integer_text (serve offline)
              [("providerType", Str "AWS_S3_BUCKET");
               ("resourceName", Str "my bucket")] eq_refl eq_refl)
    as [query [Hlog [_ [Hprovider [Hresource _]]]]].
  exists query. split; [exact Hlog|]. split.
  - exact (Hprovider "AWS_S3_BUCKET" eq_refl).
  - destruct (Hresource (Str "my bucket") eq_refl) as [s [Hs Hlookup]].
    injection Hs as <-. exact Hlookup.
Defined.

Lemma collection_keeps_order_and_count_witness :
  execute (serve (server_with page_of_37 Null))
    (sample_tasks_get [("id", Num (Int 5)); ("page", Num (Int 2))])
  = (Ok (Arr [Obj (Some Task) (record_of_id 1);
              Obj (Some Task) (record_of_id 2);
              Obj (Some Task) (record_of_id 3)]
           [("count", Num (Int 37))]),
     [serverProxy_tasks_get [("id", Num (Int 5)); ("page", Num (Int 2))]]).
Proof.
  apply (proj1 (@collection_keeps_order_and_count sample_TaskStatus sample_TaskMode
                  sample_DimensionType keep_properties)
           (serve (server_with page_of_37 Null))
           [("id", Num (Int 5)); ("page", Num (Int 2))] page_of_37).
  - reflexivity.
  - reflexivity.
  - reflexivity.
  - repeat constructor.
Defined.

(** C5 as it is stated fails on an answer that carries no count: from three
    records without a declared total the tasks operation makes a collection
    of three entities whose [count] is [undefined], not 3. *)
Lemma tasks_count_is_not_the_number_of_records :
  exists entities total,
    execute (serve (server_with page_without_count Null)) (sample_tasks_get [])
    = (Ok (Arr entities [("count", total)]), [serverProxy_tasks_get []])
    /\ List.length entities = 3
    /\ declared_or_length page_without_count = Num (Int 3)
    /\ total = Undefined
    /\ total <> declared_or_length page_without_count.
Proof.
  eexists. eexists. split; [reflexivity|].
  repeat split. discriminate.
Qed.

Lemma projects_get_exposes_task_ids_witness :
  exists entities,
    execute (serve (server_with {| records := [raw_project]; count := Num (Int 1) |} Null))
      (cvat_projects_get sample_TaskStatus keep_properties [])
    = (Ok (Arr entities [("count", Num (Int 1))]), [serverProxy_projects_get []])
    /\ Forall2 exposes_task_ids [raw_project] entities.
Proof.
  destruct (@projects_get_exposes_task_ids sample_TaskStatus keep_properties
              (serve (server_with {| records := [raw_project]; count := Num (Int 1) |} Null))
              [] {| records := [raw_project]; count := Num (Int 1) |} eq_refl)
    as [Hshows Hreturns].
  destruct Hreturns as [entities Hrun].
  - reflexivity.
  - reflexivity.
  - repeat constructor.
    + now exists 1%Z.
    + now exists [Num (Int 4); Num (Int 6)], [].
  - exists entities. split; [exact Hrun|].
    destruct (Hshows _ _ Hrun) as [entities' [Heq Hall]].
    injection Heq as <-. exact Hall.
Defined.

Lemma users_query_keeps_truthy_entries_witness :
  lookup (users_searchParams
            [("is_active", Bool false); ("id", Num (Int 0)); ("self", Bool false);
             ("search", Str "bob")]) "search" = Some (Str "bob")
  /\ snd (execute (serve offline)
            (cvat_users_get keep_properties
               [("is_active", Bool false); ("id", Num (Int 0)); ("self", Bool false);
                ("search", Str "bob")]))
     = [serverProxy_users_get [("search", Str "bob")]].
Proof.
  destruct (@users_query_keeps_truthy_entries keep_properties
              [("is_active", Bool false); ("id", Num (Int 0)); ("self", Bool false);
               ("search", Str "bob")]) as [Hentries Hcall].
  split.
  - apply Hentries. repeat split. discriminate.
  - apply (Hcall (serve offline)); reflexivity.
Defined.

Lemma organizations_marker_witness :
  cvat_organizations_activate (Str "acme") {| organizationID := Str "old" |}
  = (Err (InvalidTypeError "organization" "Organization" (Str "acme")),
     {| organizationID := Str "old" |})
  /\ exists props,
       Obj (Some Organization) [("slug", Str "acme")] = Obj (Some Organization) props
       /\ cvat_organizations_activate (Obj (Some Organization) [("slug", Str "acme")])
            {| organizationID := Null |}
          = (Ok tt, {| organizationID := get props "slug" |}).
Proof.
  split.
  - exact (proj1 (organizations_marker (Str "acme") {| organizationID := Str "old" |})
             eq_refl).
  - exact (proj1 (proj2 (organizations_marker
                           (Obj (Some Organization) [("slug", Str "acme")])
                           {| organizationID := Null |}))
             eq_refl).
Defined.

(** * Further properties of the operations *)

(** ** The loop of [translate] *)

Lemma get_of_lookup (o : object) (key : string) (v : value) :
  lookup o key = Some v -> get o key = v.
Proof. unfold get. now intros ->. Qed.

Lemma checkFilter_known_keys (fields : schema) (filter : object) :
  checkFilter filter fields = Ok tt ->
  forall key v, In (key, v) filter -> has_own fields key = true.
Proof.
  induction filter as [|[k w] rest IH]; intros Hcheck key v Hin; [contradiction|].
  cbn [checkFilter] in Hcheck.
  destruct (lookup fields k) as [c|] eqn:Hk; [|discriminate].
  destruct (accepts c w); [|discriminate].
  destruct Hin as [Heq|Hin].
  - injection Heq as <- <-. apply has_own_lookup. now exists c.
  - now apply (IH Hcheck key v).
Qed.

Lemma translate_loop_skips (filter : object) (name : string)
  (fields : list string) (searchParams : object) :
  ~ In name (map camelToSnake fields) ->
  lookup (fold_left (translate_step filter) fields searchParams) name
  = lookup searchParams name.
Proof.
  revert searchParams.
  induction fields as [|field rest IH]; intros searchParams Hname; [reflexivity|].
  cbn [fold_left]. rewrite IH by (intros H; apply Hname; now right).
  unfold translate_step. destruct (has_own filter field); [|reflexivity].
  apply lookup_set_other. intros Heq. apply Hname. now left.
Qed.

Lemma translate_loop_lookup (filter : object) (fields : list string) :
  NoDup (map camelToSnake fields) ->
  forall (searchParams : object) (field : string),
    In field fields ->
    lookup (fold_left (translate_step filter) fields searchParams)
      (camelToSnake field)
    = if has_own filter field then Some (get filter field)
      else lookup searchParams (camelToSnake field).
Proof.
  induction fields as [|g rest IH]; intros Hnodup searchParams field Hin;
    [contradiction|].
  cbn [map] in Hnodup. inversion Hnodup as [|x l Hfresh Hrest]; subst.
  cbn [fold_left]. destruct Hin as [->|Hin].
  - rewrite translate_loop_skips by exact Hfresh.
    unfold translate_step. destruct (has_own filter field); [|reflexivity].
    apply lookup_set_same.
  - rewrite (IH Hrest _ _ Hin).
    destruct (has_own filter field); [reflexivity|].
    unfold translate_step. destruct (has_own filter g); [|reflexivity].
    apply lookup_set_other. intros Heq. apply Hfresh. rewrite Heq.
    now apply in_map.
Qed.

Lemma translate_loop_origin (filter : object) (fields : list string) :
  forall (searchParams : object) (name : string) (v : value),
    lookup (fold_left (translate_step filter) fields searchParams) name = Some v ->
    lookup searchParams name = Some v
    \/ exists field, In field fields /\ camelToSnake field = name
                     /\ lookup filter field = Some v.
Proof.
  induction fields as [|g rest IH]; intros searchParams name v Hlookup;
    [now left|].
  cbn [fold_left] in Hlookup. destruct (IH _ _ _ Hlookup) as [Hstep|Hrest].
  - unfold translate_step in Hstep.
    destruct (has_own filter g) eqn:Hg; [|now left].
    destruct (String.eqb (camelToSnake g) name) eqn:E.
    + apply String.eqb_eq in E. subst name. rewrite lookup_set_same in Hstep.
      injection Hstep as <-. right. exists g. repeat split; [now left|].
      apply has_own_lookup in Hg as [w Hw]. now rewrite (get_of_lookup _ _ Hw).
    + apply String.eqb_neq in E. rewrite lookup_set_other in Hstep by exact E.
      now left.
  - destruct Hrest as [field [Hin [Hname Hfield]]].
    right. exists field. repeat split; auto. now right.
Qed.

Lemma cloudStorages_loop_lookup (unsafe_integer_text : Z -> string)
  (filter : object) (fields : list string) :
  NoDup (map camelToSnake fields) ->
  forall (searchParams : URLSearchParams) (field : string),
    In field fields ->
    lookup (fold_left (cloudStorages_step unsafe_integer_text filter) fields searchParams)
      (camelToSnake field)
    = if has_own filter field then Some (ToString unsafe_integer_text (get filter field))
      else lookup searchParams (camelToSnake field).
Proof.
  induction fields as [|g rest IH]; intros Hnodup searchParams field Hin;
    [contradiction|].
  cbn [map] in Hnodup. inversion Hnodup as [|x l Hfresh Hrest]; subst.
  cbn [fold_left]. destruct Hin as [->|Hin].
  - rewrite cloudStorages_loop_skips.
    + unfold cloudStorages_step. destruct (has_own filter field); [|reflexivity].
      apply lookup_URLSearchParams_set_same.
    + apply forallb_forall. intros x Hx. apply negb_true_iff, String.eqb_neq.
      intros Heq. apply Hfresh. rewrite <- Heq. now apply in_map.
  - rewrite (IH Hrest _ _ Hin).
    destruct (has_own filter field); [reflexivity|].
    unfold cloudStorages_step. destruct (has_own filter g); [|reflexivity].
    apply lookup_URLSearchParams_set_other. intros Heq. apply Hfresh.
    rewrite Heq. now apply in_map.
Qed.

(** Membership in a list of field names, decided by running through it. *)
Lemma existsb_eqb_In (key : string) (fields : list string) :
  existsb (String.eqb key) fields = true -> In key fields.
Proof.
  intros H. apply existsb_exists in H as [x [Hin Heq]].
  apply String.eqb_eq in Heq. now subst.
Qed.

Lemma has_own_existsb_keys {A : Type} (o : list (string * A)) (key : string) :
  has_own o key = existsb (String.eqb key) (keys o).
Proof.
  induction o as [|[k w] rest IH]; [reflexivity|].
  cbn [keys map fst existsb has_own]. rewrite String.eqb_sym.
  destruct (String.eqb key k); [reflexivity | exact IH].
Qed.

(** ** The marker under repeated activation *)

Lemma activate_each_no_instance (organizations : list value) (cfg : config) :
  forallb (fun o => negb (instance_of o Organization)) organizations = true ->
  activate_each organizations cfg = cfg.
Proof.
  revert cfg. induction organizations as [|o rest IH]; intros cfg Hnone;
    [reflexivity|].
  cbn [forallb] in Hnone. apply andb_true_iff in Hnone as [Ho Hrest].
  unfold activate_each in *. cbn [fold_left].
  unfold cvat_organizations_activate at 2. unfold checkObjectType.
  apply negb_true_iff in Ho. rewrite Ho. cbn [snd]. now apply IH.
Qed.

Section Operations.

Variables TaskStatus TaskMode DimensionType : object.
Variables CloudStorageProviderType CloudStorageCredentialsType : object.
Variable construct : class -> value -> result object.
Variable unsafe_integer_text : Z -> string.

Local Abbreviation jobs_get := (cvat_jobs_get construct).
Local Abbreviation tasks_get :=
  (cvat_tasks_get TaskStatus TaskMode DimensionType construct).
Local Abbreviation projects_get := (cvat_projects_get TaskStatus construct).
Local Abbreviation cloudStorages_get :=
  (cvat_cloudStorages_get CloudStorageProviderType CloudStorageCredentialsType
     construct unsafe_integer_text).
Local Abbreviation users_get := (cvat_users_get construct).
Local Abbreviation organizations_get := (cvat_organizations_get construct).
Local Abbreviation tasks_fields_schema :=
  (tasks_schema TaskStatus TaskMode DimensionType).
Local Abbreviation cloudStorages_fields_schema :=
  (cloudStorages_schema CloudStorageProviderType CloudStorageCredentialsType).

(** ** What each operation does past its checks *)

Lemma cloudStorages_get_runs (t : transport) (filter : object) :
  checkFilter filter cloudStorages_fields_schema = Ok tt ->
  checkExclusiveFields filter ["id"; "search"] ["page"] = Ok tt ->
  execute t (cloudStorages_get filter)
  = (result_bind
       (t [] (serverProxy_cloudStorages_get
                (URLSearchParams_toString (cloudStorages_searchParams unsafe_integer_text filter))))
       (collection construct CloudStorage),
     [serverProxy_cloudStorages_get
        (URLSearchParams_toString (cloudStorages_searchParams unsafe_integer_text filter))]).
Proof.
  intros Hschema Hexclusive. unfold cvat_cloudStorages_get.
  rewrite (run_guard_passes t _ Hschema), (run_guard_passes t _ Hexclusive).
  unfold execute. rewrite run_bind, run_await.
  destruct (t [] _) as [data|e]; [|reflexivity].
  apply run_adapt.
Qed.

Lemma organizations_get_runs (t : transport) :
  execute t organizations_get
  = (result_bind (t [] serverProxy_organizations_get)
       (fun organizationsData =>
          result_bind (mapM (new_record construct Organization) organizationsData)
            (fun organizations => Ok (Arr organizations []))),
     [serverProxy_organizations_get]).
Proof.
  unfold cvat_organizations_get, execute.
  rewrite run_bind, (run_await t serverProxy_organizations_get).
  destruct (t [] serverProxy_organizations_get) as [data|e]; [|reflexivity].
  cbn [result_bind]. rewrite run_bind, run_lift.
  destruct (mapM _ data); reflexivity.
Qed.

Lemma users_get_list_runs (t : transport) (filter : object) :
  checkFilter filter users_schema = Ok tt ->
  (has_own filter "self" && truthy (get filter "self"))%bool = false ->
  execute t (users_get filter)
  = (result_bind (t [] (serverProxy_users_get (users_searchParams filter)))
       (fun users =>
          result_bind (mapM (new_record construct User) users)
            (fun users => Ok (Arr users []))),
     [serverProxy_users_get (users_searchParams filter)]).
Proof.
  intros Hschema Hself. unfold cvat_users_get.
  rewrite (run_guard_passes t _ Hschema), Hself. cbv iota. unfold execute.
  rewrite run_bind, (run_await t (serverProxy_users_get (users_searchParams filter))).
  destruct (t [] _) as [users|e]; [|reflexivity].
  cbn [result_bind]. rewrite run_bind, run_lift.
  destruct (mapM _ users); reflexivity.
Qed.

Lemma users_get_self_runs (t : transport) (filter : object) :
  checkFilter filter users_schema = Ok tt ->
  (has_own filter "self" && truthy (get filter "self"))%bool = true ->
  execute t (users_get filter)
  = (result_bind (t [] serverProxy_users_self)
       (fun self =>
          result_bind (new construct User (Obj None self))
            (fun user => Ok (Arr [user] []))),
     [serverProxy_users_self]).
Proof.
  intros Hschema Hself. unfold cvat_users_get.
  rewrite (run_guard_passes t _ Hschema), Hself. cbv iota. unfold execute.
  rewrite run_bind, run_bind, (run_await t serverProxy_users_self).
  destruct (t [] serverProxy_users_self) as [self|e]; [|reflexivity].
  cbn [run result_bind]. rewrite run_bind, run_lift. cbn [mapM].
  unfold new_record.
  destruct (new construct User (Obj None self)); reflexivity.
Qed.

Lemma jobs_query_log (t : transport) (filter : object) (log : list request) :
  snd (run t log (jobs_query construct filter))
  = (log ++ [serverProxy_jobs_get filter])%list.
Proof.
  unfold jobs_query.
  rewrite run_bind, (run_await t (serverProxy_jobs_get filter)).
  destruct (t log (serverProxy_jobs_get filter)) as [jobsData|e]; [|reflexivity].
  rewrite run_bind, run_lift.
  destruct (property jobsData "results") as [results|e]; [|reflexivity].
  destruct results; try reflexivity.
  rewrite run_bind, run_lift.
  destruct (mapM (new construct Job) elems); [|reflexivity].
  rewrite run_bind, run_lift.
  destruct (property jobsData "count"); reflexivity.
Qed.

(** ** Failures *)

(** X1: the transport's failure is the operation's failure. When the checks
    have passed and the one call is rejected, the tasks, projects and cloud
    storages operations fail with the very error of the transport, and so
    does the organizations operation, which has no check; nothing is
    wrapped and no second call is made. *)
Theorem transport_failure_is_passed_on (t : transport) (e : error) :
  (forall filter,
      checkFilter filter tasks_fields_schema = Ok tt ->
      checkExclusiveFields filter ["id"; "search"; "projectId"] ["page"] = Ok tt ->
      t [] (serverProxy_tasks_get (translate filter tasks_fields)) = Err e ->
      execute t (tasks_get filter)
      = (Err e, [serverProxy_tasks_get (translate filter tasks_fields)]))
  /\ (forall filter,
         checkFilter filter (projects_schema TaskStatus) = Ok tt ->
         checkExclusiveFields filter ["id"; "search"] ["page"] = Ok tt ->
         t [] (serverProxy_projects_get (translate filter projects_fields)) = Err e ->
         execute t (projects_get filter)
         = (Err e, [serverProxy_projects_get (translate filter projects_fields)]))
  /\ (forall filter,
         checkFilter filter cloudStorages_fields_schema = Ok tt ->
         checkExclusiveFields filter ["id"; "search"] ["page"] = Ok tt ->
         t [] (serverProxy_cloudStorages_get
                 (URLSearchParams_toString (cloudStorages_searchParams unsafe_integer_text filter)))
         = Err e ->
         execute t (cloudStorages_get filter)
         = (Err e, [serverProxy_cloudStorages_get
                      (URLSearchParams_toString (cloudStorages_searchParams unsafe_integer_text filter))]))
  /\ (t [] serverProxy_organizations_get = Err e ->
      execute t organizations_get = (Err e, [serverProxy_organizations_get])).
Proof.
  split; [|split; [|split]].
  - intros filter Hschema Hexclusive Hanswer.
    now rewrite (@tasks_get_runs TaskStatus TaskMode DimensionType construct t filter Hschema Hexclusive), Hanswer.
  - intros filter Hschema Hexclusive Hanswer.
    now rewrite (@projects_get_runs TaskStatus construct t filter Hschema Hexclusive), Hanswer.
  - intros filter Hschema Hexclusive Hanswer.
    now rewrite (cloudStorages_get_runs t _ Hschema Hexclusive), Hanswer.
  - intros Hanswer. now rewrite organizations_get_runs, Hanswer.
Qed.

Lemma mapM_first_failure {A B : Type} (f : A -> result B)
  (before : list A) (x : A) (after : list A) (ys : list B) (e : error) :
  mapM f before = Ok ys -> f x = Err e ->
  mapM f (before ++ x :: after) = Err e.
Proof.
  revert ys. induction before as [|a rest IH]; intros ys Hbefore Hx.
  - cbn [app mapM]. now rewrite Hx.
  - cbn [app mapM] in *. destruct (f a) as [b|e']; [|discriminate].
    cbn [result_bind] in *.
    destruct (mapM f rest) as [bs|e']; [|discriminate].
    now rewrite (IH bs eq_refl Hx).
Qed.

(** X2: no partial collection. When the constructor throws on one record
    of the answer, after succeeding on all records before it, the tasks
    operation fails with that error: the entities already made are not
    returned and the records after it are not looked at. *)
Theorem tasks_get_first_bad_record
  (t : transport) (filter : object) (data : listing)
  (before : list object) (bad : object) (after : list object)
  (entities : list value) (e : error) :
  checkFilter filter tasks_fields_schema = Ok tt ->
  checkExclusiveFields filter ["id"; "search"; "projectId"] ["page"] = Ok tt ->
  t [] (serverProxy_tasks_get (translate filter tasks_fields)) = Ok data ->
  records data = (before ++ bad :: after)%list ->
  mapM (new_record construct Task) before = Ok entities ->
  new construct Task (Obj None bad) = Err e ->
  execute t (tasks_get filter)
  = (Err e, [serverProxy_tasks_get (translate filter tasks_fields)]).
Proof.
  intros Hschema Hexclusive Hanswer Hrecords Hbefore Hbad.
  rewrite (@tasks_get_runs TaskStatus TaskMode DimensionType construct t filter Hschema Hexclusive), Hanswer.
  cbn [result_bind]. unfold collection. rewrite Hrecords.
  now rewrite (mapM_first_failure (new_record construct Task) _ _ after Hbefore Hbad).
Qed.

(** ** How many calls *)

(** X3: whatever the filter and whatever the transport answers, the users,
    tasks, projects, cloud storages and organizations operations call the
    transport at most once, and the jobs operation at most twice. *)
Theorem calls_are_bounded (t : transport) (filter : object) :
  List.length (snd (execute t (users_get filter))) <= 1
  /\ List.length (snd (execute t (tasks_get filter))) <= 1
  /\ List.length (snd (execute t (projects_get filter))) <= 1
  /\ List.length (snd (execute t (cloudStorages_get filter))) <= 1
  /\ List.length (snd (execute t organizations_get)) <= 1
  /\ List.length (snd (execute t (jobs_get filter))) <= 2.
Proof.
  repeat split.
  - destruct (checkFilter filter users_schema) as [[]|e] eqn:Hschema.
    + destruct (has_own filter "self" && truthy (get filter "self"))%bool eqn:Hself.
      * rewrite (users_get_self_runs t _ Hschema Hself). cbn. lia.
      * rewrite (users_get_list_runs t _ Hschema Hself). cbn. lia.
    + unfold cvat_users_get. rewrite (run_guard_fails t _ Hschema). cbn. lia.
  - destruct (checkFilter filter tasks_fields_schema) as [[]|e] eqn:Hschema.
    + destruct (checkExclusiveFields filter ["id"; "search"; "projectId"] ["page"])
        as [[]|e] eqn:Hexclusive.
      * rewrite (@tasks_get_runs TaskStatus TaskMode DimensionType construct t filter Hschema Hexclusive). cbn. lia.
      * unfold cvat_tasks_get.
        rewrite (run_guard_passes t _ Hschema), (run_guard_fails t _ Hexclusive).
        cbn. lia.
    + unfold cvat_tasks_get. rewrite (run_guard_fails t _ Hschema). cbn. lia.
  - destruct (checkFilter filter (projects_schema TaskStatus)) as [[]|e] eqn:Hschema.
    + destruct (checkExclusiveFields filter ["id"; "search"] ["page"])
        as [[]|e] eqn:Hexclusive.
      * rewrite (@projects_get_runs TaskStatus construct t filter Hschema Hexclusive). cbn. lia.
      * unfold cvat_projects_get.
        rewrite (run_guard_passes t _ Hschema), (run_guard_fails t _ Hexclusive).
        cbn. lia.
    + unfold cvat_projects_get. rewrite (run_guard_fails t _ Hschema). cbn. lia.
  - destruct (checkFilter filter cloudStorages_fields_schema) as [[]|e] eqn:Hschema.
    + destruct (checkExclusiveFields filter ["id"; "search"] ["page"])
        as [[]|e] eqn:Hexclusive.
      * rewrite (cloudStorages_get_runs t _ Hschema Hexclusive). cbn. lia.
      * unfold cvat_cloudStorages_get.
        rewrite (run_guard_passes t _ Hschema), (run_guard_fails t _ Hexclusive).
        cbn. lia.
    + unfold cvat_cloudStorages_get. rewrite (run_guard_fails t _ Hschema).
      cbn. lia.
  - rewrite organizations_get_runs. cbn. lia.
  - destruct (checkFilter filter jobs_schema) as [[]|e] eqn:Hschema;
      unfold cvat_jobs_get;
      [|rewrite (run_guard_fails t _ Hschema); cbn; lia].
    rewrite (run_guard_passes t _ Hschema). unfold execute.
    destruct (has_own filter "taskID") eqn:Htask;
      destruct (has_own filter "jobID") eqn:Hjob; cbn [andb].
    + cbn. lia.
    + rewrite run_bind, run_await.
      destruct (t [] _) as [tasks|e]; [|cbn; lia].
      destruct (records tasks) as [|task rest]; [cbn; lia|].
      rewrite run_bind, run_lift.
      destruct (new_record construct Task task); [|cbn; lia].
      rewrite run_lift. cbn. lia.
    + rewrite run_bind, (run_await t (serverProxy_jobs_get [("id", get filter "jobID")])).
      destruct (t [] _) as [job|e]; [|cbn; lia].
      destruct (truthy job).
      * rewrite run_bind, run_lift.
        destruct (new construct Job job); cbn; lia.
      * rewrite jobs_query_log. cbn. lia.
    + rewrite jobs_query_log. cbn. lia.
Qed.

(** ** Users *)

(** X4: with [self] set to [true] in a filter that passes the schema check,
    the users operation asks only for the current user: its one call is
    [users.self], the rest of the filter is sent nowhere, and the result is
    the one-element array of the user made of the answer. *)
Theorem users_get_self (t : transport) (filter : object) :
  checkFilter filter users_schema = Ok tt ->
  lookup filter "self" = Some (Bool true) ->
  execute t (users_get filter)
  = (result_bind (t [] serverProxy_users_self)
       (fun self =>
          result_bind (new construct User (Obj None self))
            (fun user => Ok (Arr [user] []))),
     [serverProxy_users_self]).
Proof.
  intros Hschema Hself. apply users_get_self_runs; [exact Hschema|].
  assert (Hhas : has_own filter "self" = true)
    by (apply has_own_lookup; now exists (Bool true)).
  now rewrite Hhas, (get_of_lookup _ _ Hself).
Qed.

(** ** Jobs *)

(** X6: when the single-record fetch of a job gives a falsy answer, the
    jobs operation makes exactly two calls, the fetch by id and then the
    paginated query with the whole filter, and its outcome is the outcome
    of that query. *)
Theorem jobs_get_missing_job_calls_twice
  (t : transport) (filter : object) (job : value) :
  checkFilter filter jobs_schema = Ok tt ->
  has_own filter "taskID" = false ->
  has_own filter "jobID" = true ->
  t [] (serverProxy_jobs_get [("id", get filter "jobID")]) = Ok job ->
  truthy job = false ->
  snd (execute t (jobs_get filter))
  = [serverProxy_jobs_get [("id", get filter "jobID")];
     serverProxy_jobs_get filter]
  /\ fst (execute t (jobs_get filter))
     = fst (run t [serverProxy_jobs_get [("id", get filter "jobID")]]
              (jobs_query construct filter)).
Proof.
  intros Hschema Htask Hjob Hanswer Hfalsy.
  rewrite (@jobs_get_by_jobID_missing construct t filter job
             Hschema Htask Hjob Hanswer Hfalsy).
  split; [apply jobs_query_log | reflexivity].
Qed.

(** X7: the paginated jobs query needs an answer with an array under
    [results]. With neither [taskID] nor [jobID] in a filter that passes
    the schema check, an answer whose [results] is anything else makes the
    operation fail with a [TypeError] after its one call. *)
Theorem jobs_get_answer_without_results
  (t : transport) (filter : object) (jobsData results : value) :
  checkFilter filter jobs_schema = Ok tt ->
  has_own filter "taskID" = false ->
  has_own filter "jobID" = false ->
  t [] (serverProxy_jobs_get filter) = Ok jobsData ->
  property jobsData "results" = Ok results ->
  (forall elems props, results <> Arr elems props) ->
  execute t (jobs_get filter) = (Err TypeError, [serverProxy_jobs_get filter]).
Proof.
  intros Hschema Htask Hjob Hanswer Hresults Hshape. unfold cvat_jobs_get.
  rewrite (run_guard_passes t _ Hschema), Htask, Hjob. cbn [andb].
  unfold execute, jobs_query.
  rewrite run_bind, (run_await t (serverProxy_jobs_get filter)), Hanswer.
  rewrite run_bind, run_lift, Hresults.
  destruct results; try reflexivity.
  now destruct (Hshape elems props).
Qed.

(** ** The wire queries *)

(** X8: the tasks and projects queries lose nothing and invent nothing.
    For a filter that passes the schema check of the operation, every entry
    is in the query with its value, under the translated name of its key; and
    for any filter and any list of enumerated fields, an entry of the query
    is the value the filter holds for an enumerated field of that
    translated name. *)
Theorem list_queries_hold_the_filter (filter : object) :
  (checkFilter filter tasks_fields_schema = Ok tt ->
   forall key v, lookup filter key = Some v ->
                 lookup (translate filter tasks_fields) (camelToSnake key) = Some v)
  /\ (checkFilter filter (projects_schema TaskStatus) = Ok tt ->
      forall key v, lookup filter key = Some v ->
                    lookup (translate filter projects_fields) (camelToSnake key)
                    = Some v)
  /\ (forall fields name v,
         lookup (translate filter fields) name = Some v ->
         exists field, In field fields /\ camelToSnake field = name
                       /\ lookup filter field = Some v).
Proof.
  split; [|split].
  - intros Hschema key v Hkey.
    assert (Hknown : has_own tasks_fields_schema key = true)
      by (apply (checkFilter_known_keys _ _ Hschema key v); now apply lookup_entry).
    assert (Hfield : In key tasks_fields).
    { apply existsb_eqb_In. rewrite has_own_existsb_keys in Hknown.
      cbn [keys map fst tasks_schema existsb] in Hknown. cbn [tasks_fields existsb].
      repeat match goal with
             | |- context [String.eqb key ?f] => destruct (String.eqb key f)
             end; try reflexivity; discriminate. }
    change (translate filter tasks_fields)
      with (fold_left (translate_step filter) tasks_fields []).
    rewrite translate_loop_lookup; [| |exact Hfield].
    + assert (Hhas : has_own filter key = true)
        by (apply has_own_lookup; now exists v).
      now rewrite Hhas, (get_of_lookup _ _ Hkey).
    + cbv [map tasks_fields projects_fields cloudStorages_fields].
      repeat (apply NoDup_cons; [cbv; intuition discriminate|]). apply NoDup_nil.
  - intros Hschema key v Hkey.
    assert (Hknown : has_own (projects_schema TaskStatus) key = true)
      by (apply (checkFilter_known_keys _ _ Hschema key v); now apply lookup_entry).
    assert (Hfield : In key projects_fields).
    { apply existsb_eqb_In. rewrite has_own_existsb_keys in Hknown.
      cbn [keys map fst projects_schema existsb] in Hknown.
      cbn [projects_fields existsb].
      repeat match goal with
             | |- context [String.eqb key ?f] => destruct (String.eqb key f)
             end; try reflexivity; discriminate. }
    change (translate filter projects_fields)
      with (fold_left (translate_step filter) projects_fields []).
    rewrite translate_loop_lookup; [| |exact Hfield].
    + assert (Hhas : has_own filter key = true)
        by (apply has_own_lookup; now exists v).
      now rewrite Hhas, (get_of_lookup _ _ Hkey).
    + cbv [map tasks_fields projects_fields cloudStorages_fields].
      repeat (apply NoDup_cons; [cbv; intuition discriminate|]). apply NoDup_nil.
  - intros fields name v Hlookup.
    change (translate filter fields)
      with (fold_left (translate_step filter) fields []) in Hlookup.
    destruct (translate_loop_origin _ _ _ _ Hlookup) as [Hempty|Hfield];
      [discriminate | exact Hfield].
Qed.

(** The list of pairs built for a filter that passes the schema check
    holds the text of every entry. *)
Lemma cloudStorages_searchParams_hold_the_filter (filter : object) :
  checkFilter filter cloudStorages_fields_schema = Ok tt ->
  forall key v,
    lookup filter key = Some v ->
    lookup (cloudStorages_searchParams unsafe_integer_text filter)
      (if String.eqb key "resourceName" then "resource" else camelToSnake key)
    = Some (ToString unsafe_integer_text v).
Proof.
  intros Hschema key v Hkey.
  assert (Hhas : has_own filter key = true)
    by (apply has_own_lookup; now exists v).
  unfold cloudStorages_searchParams.
  destruct (String.eqb key "resourceName") eqn:Hresource.
  - apply String.eqb_eq in Hresource. subst key.
    rewrite Hhas, (get_of_lookup _ _ Hkey).
    apply lookup_URLSearchParams_set_same.
  - assert (Hknown : has_own cloudStorages_fields_schema key = true)
      by (apply (checkFilter_known_keys _ _ Hschema key v); now apply lookup_entry).
    assert (Hfield : In key cloudStorages_fields).
    { apply existsb_eqb_In. rewrite has_own_existsb_keys in Hknown.
      cbn [keys map fst cloudStorages_schema existsb] in Hknown.
      cbn [cloudStorages_fields existsb]. rewrite Hresource in Hknown.
      repeat match goal with
             | |- context [String.eqb key ?f] => destruct (String.eqb key f)
             end; try reflexivity; discriminate. }
    assert (Hloop : lookup (fold_left (cloudStorages_step unsafe_integer_text filter)
                              cloudStorages_fields []) (camelToSnake key)
                    = Some (ToString unsafe_integer_text v)).
    { rewrite cloudStorages_loop_lookup; [| |exact Hfield].
      - now rewrite Hhas, (get_of_lookup _ _ Hkey).
      - cbv [map tasks_fields projects_fields cloudStorages_fields].
      repeat (apply NoDup_cons; [cbv; intuition discriminate|]). apply NoDup_nil. }
    destruct (has_own filter "resourceName"); [|exact Hloop].
    rewrite lookup_URLSearchParams_set_other; [exact Hloop|].
    intros Heq. rewrite <- Heq in Hloop.
    rewrite cloudStorages_loop_skips in Hloop by reflexivity. discriminate.
Qed.

(** X9: the cloud storages query loses nothing. For a filter that passes the
    two checks the operation makes one call, and the text it sends reads,
    as a form-urlencoded query, the text of every entry's value: under the
    name [resource] for the key [resourceName], under the translated name
    of the key for every other entry. The text of an integer below 2^53 is
    its digits; beyond, it is the platform's (exponent form from 10^21). *)
Theorem cloudStorages_query_holds_the_filter (t : transport) (filter : object) :
  checkFilter filter cloudStorages_fields_schema = Ok tt ->
  checkExclusiveFields filter ["id"; "search"] ["page"] = Ok tt ->
  exists query,
    snd (execute t (cloudStorages_get filter))
    = [serverProxy_cloudStorages_get query]
    /\ forall key v,
         lookup filter key = Some v ->
         lookup (urlencoded_parse query)
           (if String.eqb key "resourceName" then "resource"
            else camelToSnake key)
         = Some (ToString unsafe_integer_text v).
Proof.
  intros Hschema Hexclusive.
  exists (URLSearchParams_toString (cloudStorages_searchParams unsafe_integer_text filter)).
  rewrite urlencoded_parse_toString. split.
  - now rewrite (cloudStorages_get_runs t _ Hschema Hexclusive).
  - now apply cloudStorages_searchParams_hold_the_filter.
Qed.

(** X10: the record handed to the project constructor is the raw record
    with one property written: [task_ids] holds what the record has under
    [tasks] ([undefined] if nothing, whatever [task_ids] the server sent),
    and every other property, [tasks] among them, reads as before. *)
Theorem with_task_ids_keeps_the_record (project : object) (key : string) :
  lookup (with_task_ids project) key
  = if String.eqb key "task_ids" then Some (get project "tasks")
    else lookup project key.
Proof.
  unfold with_task_ids. destruct (String.eqb key "task_ids") eqn:E.
  - apply String.eqb_eq in E. subst key. apply lookup_set_same.
  - apply String.eqb_neq in E. apply lookup_set_other. congruence.
Qed.

(** ** Exclusive fields of the other operations *)

(** X11: a filter that holds both [id] and [search] and passes the schema
    check makes the projects operation and the cloud storages operation fail
    with [ConflictingFieldsError] naming the two fields, before any call. *)
Theorem id_and_search_conflict (t : transport) (filter : object) :
  has_own filter "id" = true ->
  has_own filter "search" = true ->
  (checkFilter filter (projects_schema TaskStatus) = Ok tt ->
   execute t (projects_get filter)
   = (Err (ConflictingFieldsError ["id"; "search"]), []))
  /\ (checkFilter filter cloudStorages_fields_schema = Ok tt ->
      execute t (cloudStorages_get filter)
      = (Err (ConflictingFieldsError ["id"; "search"]), [])).
Proof.
  intros Hid Hsearch.
  assert (Hexclusive : checkExclusiveFields filter ["id"; "search"] ["page"]
                       = Err (ConflictingFieldsError ["id"; "search"])).
  { unfold checkExclusiveFields. cbn [List.filter]. now rewrite Hid, Hsearch. }
  split; intros Hschema.
  - unfold cvat_projects_get. rewrite (run_guard_passes t _ Hschema).
    now apply run_guard_fails.
  - unfold cvat_cloudStorages_get. rewrite (run_guard_passes t _ Hschema).
    now apply run_guard_fails.
Qed.

(** ** Organizations *)

Lemma new_instance (c : class) (raw : value) (entity : value) :
  new construct c raw = Ok entity ->
  exists props, entity = Obj (Some c) props.
Proof.
  unfold new.
  destruct (match c with Project => Project_constructor raw | _ => construct c raw end)
    as [props|e]; [|discriminate].
  intros H. injection H as <-. now exists props.
Qed.

(** X12: what activation accepts is what the organizations operation
    returns. Every element of a collection returned by the organizations
    operation can be activated, whatever the marker was; an entity built for
    any other class is refused with the type error and leaves the marker
    untouched. *)
Theorem activation_accepts_fetched_organizations :
  (forall (t : transport) (organizations : value) (log : list request),
      execute t organizations_get = (Ok organizations, log) ->
      exists entities,
        organizations = Arr entities []
        /\ Forall (fun entity =>
                     forall cfg, exists slug,
                       cvat_organizations_activate entity cfg
                       = (Ok tt, {| organizationID := slug |}))
             entities)
  /\ (forall (c : class) (raw entity : value) (cfg : config),
         c <> Organization ->
         new construct c raw = Ok entity ->
         cvat_organizations_activate entity cfg
         = (Err (InvalidTypeError "organization" "Organization" entity), cfg)).
Proof.
  split.
  - intros t organizations log Hrun. rewrite organizations_get_runs in Hrun.
    destruct (t [] serverProxy_organizations_get) as [data|e]; [|discriminate].
    cbn [result_bind] in Hrun.
    destruct (mapM (new_record construct Organization) data) as [entities|e] eqn:Hmap;
      [|discriminate].
    injection Hrun as <- _. exists entities. split; [reflexivity|].
    apply mapM_Forall2 in Hmap.
    induction Hmap as [|raw entity raws rest Hnew _ IH]; constructor; [|exact IH].
    destruct (new_instance _ _ Hnew) as [props ->]. intros cfg.
    now exists (get props "slug").
  - intros c raw entity cfg Hclass Hnew.
    destruct (new_instance _ _ Hnew) as [props ->].
    unfold cvat_organizations_activate, checkObjectType, instance_of.
    destruct c; try reflexivity. contradiction.
Qed.

End Operations.

(** X13: the marker after a run of activation attempts. Attempts on values
    that are not [Organization] instances change nothing; after a run in
    which some attempt succeeds, the marker is the [slug] of the last
    instance of the run. *)
Theorem marker_after_activations (cfg : config) :
  (forall organizations,
      forallb (fun o => negb (instance_of o Organization)) organizations = true ->
      activate_each organizations cfg = cfg)
  /\ (forall before props after,
         forallb (fun o => negb (instance_of o Organization)) after = true ->
         organizationID
           (activate_each (before ++ Obj (Some Organization) props :: after) cfg)
         = get props "slug").
Proof.
  split.
  - intros organizations. apply activate_each_no_instance.
  - intros before props after Hafter. unfold activate_each.
    rewrite fold_left_app. cbn [fold_left].
    fold (activate_each before cfg).
    match goal with
    | |- organizationID (fold_left ?step after ?c) = _ =>
        change (fold_left step after c) with (activate_each after c)
    end.
    now rewrite (activate_each_no_instance _ _ Hafter).
Qed.

(** ** Concrete runs of the further properties *)

Lemma transport_failure_is_passed_on_witness :
  execute (serve offline) (sample_tasks_get [("page", Num (Int 2))])
  = (Err (ServerError "offline"), [serverProxy_tasks_get [("page", Num (Int 2))]]).
Proof.
  exact (proj1 (@transport_failure_is_passed_on sample_TaskStatus sample_TaskMode
                  sample_DimensionType sample_ProviderType sample_CredentialsType
                  keep_properties sample_unsafe_integer_text (serve offline)
                  (ServerError "offline"))
           [("page", Num (Int 2))] eq_refl eq_refl eq_refl).
Defined.

Lemma tasks_get_first_bad_record_witness :
  execute (serve (server_with page_of_37 Null))
    (cvat_tasks_get sample_TaskStatus sample_TaskMode sample_DimensionType
       refuse_id_2 [])
  = (Err (MalformedRecordError "id"), [serverProxy_tasks_get []]).
Proof.
  apply (@tasks_get_first_bad_record sample_TaskStatus sample_TaskMode
           sample_DimensionType refuse_id_2 (serve (server_with page_of_37 Null))
           [] page_of_37 [record_of_id 1] (record_of_id 2) [record_of_id 3]
           [Obj (Some Task) (record_of_id 1)] (MalformedRecordError "id"));
    reflexivity.
Defined.

Lemma users_get_self_witness :
  execute (serve (server_with page_of_37 Null))
    (cvat_users_get keep_properties [("self", Bool true); ("search", Str "bob")])
  = (Ok (Arr [Obj (Some User) (record_of_id 1)] []), [serverProxy_users_self]).
Proof.
  apply (@users_get_self keep_properties (serve (server_with page_of_37 Null))
           [("self", Bool true); ("search", Str "bob")]); reflexivity.
Defined.

Lemma jobs_get_by_jobID_found_witness :
  execute (serve (server_with page_of_37 (Obj None (record_of_id 7))))
    (cvat_jobs_get keep_properties [("jobID", Num (Int 7))])
  = (Ok (Arr [Obj (Some Job) (record_of_id 7)] []),
     [serverProxy_jobs_get [("id", Num (Int 7))]]).
Proof.
  apply (@jobs_get_by_jobID_found keep_properties
           (serve (server_with page_of_37 (Obj None (record_of_id 7))))
           [("jobID", Num (Int 7))] (Obj None (record_of_id 7)));
    reflexivity.
Defined.

Lemma jobs_get_missing_job_calls_twice_witness :
  snd (execute (serve server_without_job_7)
         (cvat_jobs_get keep_properties [("jobID", Num (Int 7))]))
  = [serverProxy_jobs_get [("id", Num (Int 7))];
     serverProxy_jobs_get [("jobID", Num (Int 7))]].
Proof.
  apply (@jobs_get_missing_job_calls_twice keep_properties
           (serve server_without_job_7) [("jobID", Num (Int 7))] Null);
    reflexivity.
Defined.

Lemma jobs_get_answer_without_results_witness :
  execute (serve (server_with page_of_37 (Obj None [("count", Num (Int 1))])))
    (cvat_jobs_get keep_properties [("stage", Str "annotation")])
  = (Err TypeError, [serverProxy_jobs_get [("stage", Str "annotation")]]).
Proof.
  apply (@jobs_get_answer_without_results keep_properties
           (serve (server_with page_of_37 (Obj None [("count", Num (Int 1))])))
           [("stage", Str "annotation")] (Obj None [("count", Num (Int 1))])
           Undefined);
    try reflexivity.
  intros elems props. discriminate.
Defined.

Lemma list_queries_hold_the_filter_witness :
  lookup (translate [("projectId", Num (Int 5)); ("page", Num (Int 2))] tasks_fields)
    "project_id" = Some (Num (Int 5))
  /\ exists field,
       In field tasks_fields /\ camelToSnake field = "page"
       /\ lookup [("projectId", Num (Int 5)); ("page", Num (Int 2))] field
          = Some (Num (Int 2)).
Proof.
  destruct (@list_queries_hold_the_filter sample_TaskStatus sample_TaskMode
              sample_DimensionType
              [("projectId", Num (Int 5)); ("page", Num (Int 2))])
    as [Htasks [_ Horigin]].
  split.
  - exact (Htasks eq_refl "projectId" (Num (Int 5)) eq_refl).
  - exact (Horigin tasks_fields "page" (Num (Int 2)) eq_refl).
Defined.

Lemma cloudStorages_query_holds_the_filter_witness :
  exists query,
    snd (execute (serve offline)
           (cvat_cloudStorages_get sample_ProviderType sample_CredentialsType
              keep_properties sample_unsafe_integer_text
              [("id", Num (Int (10 ^ 21))); ("displayName", Str "my storage")]))
    = [serverProxy_cloudStorages_get query]
    /\ lookup (urlencoded_parse query) "id" = Some "1e+21"
    /\ lookup (urlencoded_parse query) "display_name" = Some "my storage".
Proof.
  destruct (@cloudStorages_query_holds_the_filter sample_ProviderType
              sample_CredentialsType keep_properties sample_unsafe_integer_text
              (serve offline)
              [("id", Num (Int (10 ^ 21))); ("displayName", Str "my storage")]
              eq_refl eq_refl)
    as [query [Hlog Hentries]].
  exists query. split; [exact Hlog|]. split.
  - exact (Hentries "id" (Num (Int (10 ^ 21))) eq_refl).
  - exact (Hentries "displayName" (Str "my storage") eq_refl).
Defined.

(** The text sent for that filter, with the number in exponent form and
    its [+] and the space written as the serializer writes them. *)
Example cloudStorages_query_text :
  snd (execute (serve offline)
         (cvat_cloudStorages_get sample_ProviderType sample_CredentialsType
            keep_properties sample_unsafe_integer_text
            [("id", Num (Int (10 ^ 21))); ("displayName", Str "my storage")]))
  = [serverProxy_cloudStorages_get "display_name=my+storage&id=1e%2B21"].
Proof. reflexivity. Qed.

Lemma id_and_search_conflict_witness :
  execute (serve offline)
    (cvat_projects_get sample_TaskStatus keep_properties
       [("id", Num (Int 5)); ("search", Str "x")])
  = (Err (ConflictingFieldsError ["id"; "search"]), []).
Proof.
  exact (proj1 (@id_and_search_conflict sample_TaskStatus sample_ProviderType
                  sample_CredentialsType keep_properties
                  sample_unsafe_integer_text (serve offline)
                  [("id", Num (Int 5)); ("search", Str "x")] eq_refl eq_refl)
           eq_refl).
Defined.

Lemma activation_accepts_fetched_organizations_witness :
  (exists entities,
      Arr [Obj (Some Organization) [("slug", Str "acme")];
           Obj (Some Organization) [("slug", Str "globex")]] []
      = Arr entities []
      /\ Forall (fun entity =>
                   forall cfg, exists slug,
                     cvat_organizations_activate entity cfg
                     = (Ok tt, {| organizationID := slug |}))
           entities)
  /\ cvat_organizations_activate (Obj (Some Task) (record_of_id 1))
       {| organizationID := Str "acme" |}
     = (Err (InvalidTypeError "organization" "Organization"
               (Obj (Some Task) (record_of_id 1))),
        {| organizationID := Str "acme" |}).
Proof.
  destruct (activation_accepts_fetched_organizations keep_properties)
    as [Hfetched Hother].
  split.
  - apply (Hfetched (serve server_with_organizations) _
             [serverProxy_organizations_get]).
    reflexivity.
  - apply (Hother Task (Obj None (record_of_id 1))); [discriminate | reflexivity].
Defined.

Lemma marker_after_activations_witness :
  activate_each [Str "acme"; Null] {| organizationID := Str "old" |}
  = {| organizationID := Str "old" |}
  /\ organizationID
       (activate_each
          ([Obj (Some Organization) [("slug", Str "acme")]]
           ++ Obj (Some Organization) [("slug", Str "globex")] :: [Num (Int 3)])
          {| organizationID := Null |})
     = get [("slug", Str "globex")] "slug".
Proof.
  destruct (marker_after_activations {| organizationID := Str "old" |})
    as [Hnone _].
  destruct (marker_after_activations {| organizationID := Null |})
    as [_ Hlast].
  split.
  - apply Hnone. reflexivity.
  - apply Hlast. reflexivity.
Defined.
